(** * seller-apis: stock and price synchronisation for two marketplaces

    A shallow embedding of [seller.py] (the "Seller" marketplace) and
    [market.py] (the "Market" marketplace): the chunker [divide], the price
    normaliser [price_conversion], the transforms [create_stocks] and
    [create_prices], the identifier resolver [get_offer_ids] and the
    orchestrator [upload_stocks].

    Conventions.
    - A Python [str] is a [string] holding its UTF-8 bytes.  The only
      characters the code looks at are ASCII (['.'], the digits, the
      sentinels [">10"] and ["1"]); no byte of a multi-byte UTF-8 sequence
      is an ASCII character, so splitting on ['.'] and deleting non-digits
      act on the bytes as they do on the code points.
    - A Python [int] is a [Z].
    - A raised exception is the [Raise] case of [result].
    - A mutated list (the identifier list [offer_ids]) is threaded as a
      state: a function that mutates its argument returns the list as the
      caller sees it afterwards. *)

From Stdlib Require Import List String Ascii ZArith Lia Bool Permutation.
From Stdlib Require Import DecimalString.
From Stdlib Require Import DecimalZ DecimalPos.
Import ListNotations.
Open Scope string_scope.
Open Scope list_scope.
Open Scope Z_scope.

(** ** Python values, exceptions and built-ins *)

Module Py.

Inductive exn : Type :=
| ValueError
| TypeError
| OverflowError
| IndexError
| HTTPError.

Inductive result (A : Type) : Type :=
| Ok (a : A)
| Raise (e : exn).
Arguments Ok {A} a.
Arguments Raise {A} e.

Definition bind {A B : Type} (m : result A) (k : A -> result B) : result B :=
  match m with
  | Ok a => k a
  | Raise e => Raise e
  end.

Notation "x <- m ;; k" := (bind m (fun x => k))
  (at level 61, m at next level, right associativity).

Definition is_ok {A : Type} (m : result A) : bool :=
  match m with Ok _ => true | Raise _ => false end.

(** The values a spreadsheet cell read by pandas holds in this program: a
    string, an integer, [None] (what [dict.get] gives for a missing
    column), or a cell of another type (float, bool, datetime, ...).  The
    program only ever applies [str] and [int] to a cell, so a cell of
    another type is given by what these two return for it: for the float
    [5.0] the text "5.0" and 5, for NaN the text "nan" and [ValueError],
    for an infinity [OverflowError], for a datetime [TypeError]. *)
Inductive value : Type :=
| VStr (s : string)
| VInt (z : Z)
| VNone
| VOther (repr : string) (as_int : result Z).

(** [str(v)]. *)
Definition str (v : value) : string :=
  match v with
  | VStr s => s
  | VInt z => NilZero.string_of_int (Z.to_int z)
  | VNone => "None"
  | VOther repr _ => repr
  end.

Definition is_digit (c : ascii) : bool :=
  ((48 <=? N_of_ascii c) && (N_of_ascii c <=? 57))%N.

Definition digit_value (c : ascii) : Z := Z.of_N (N_of_ascii c) - 48.

(** The white space [int] skips around an ASCII literal: space, tab, line
    feed, vertical tab, form feed and carriage return. *)
Definition is_space (c : ascii) : bool :=
  let n := N_of_ascii c in
  ((n =? 32) || ((9 <=? n) && (n <=? 13)))%N.

Fixpoint lstrip (l : list ascii) : list ascii :=
  match l with
  | c :: l' => if is_space c then lstrip l' else l
  | [] => []
  end.

Definition strip (l : list ascii) : list ascii :=
  rev (lstrip (rev (lstrip l))).

(** The digits of an integer literal: a non-empty run of decimal digits in
    which single underscores may separate digits.  [acc] is the value read
    so far, [after_digit] tells whether the previous character was a
    digit. *)
Fixpoint int_digits (acc : Z) (after_digit : bool) (l : list ascii)
  : option Z :=
  match l with
  | [] => if after_digit then Some acc else None
  | c :: l' =>
      if is_digit c then int_digits (10 * acc + digit_value c) true l'
      else if (c =? "_")%char then
             if after_digit then
               match l' with
               | d :: _ => if is_digit d then int_digits acc false l' else None
               | [] => None
               end
             else None
           else None
  end.

(** [int(s)] on a string: surrounding white space, an optional sign, then
    the digits; anything else is a [ValueError].  This is the built-in on
    ASCII strings.  A string with a non-ASCII character is refused here,
    while the built-in also reads non-ASCII decimal digits and skips
    non-ASCII white space. *)
Definition int_of_string (s : string) : result Z :=
  match strip (list_ascii_of_string s) with
  | "-"%char :: l =>
      match int_digits 0 false l with
      | Some z => Ok (- z)
      | None => Raise ValueError
      end
  | "+"%char :: l =>
      match int_digits 0 false l with
      | Some z => Ok z
      | None => Raise ValueError
      end
  | l =>
      match int_digits 0 false l with
      | Some z => Ok z
      | None => Raise ValueError
      end
  end.

(** [int(v)]. *)
Definition int (v : value) : result Z :=
  match v with
  | VStr s => int_of_string s
  | VInt z => Ok z
  | VNone => Raise TypeError
  | VOther _ as_int => as_int
  end.

(** [x in l] on a list of strings. *)
Fixpoint contains (x : string) (l : list string) : bool :=
  match l with
  | [] => false
  | y :: l' => if String.eqb y x then true else contains x l'
  end.

(** [l.remove(x)]: deletes the first element equal to [x]; [ValueError]
    when there is none. *)
Fixpoint remove (x : string) (l : list string) : result (list string) :=
  match l with
  | [] => Raise ValueError
  | y :: l' =>
      if String.eqb y x then Ok l'
      else bind (remove x l') (fun r => Ok (y :: r))
  end.

(** [s.split(sep)] for a one-character separator [sep]: the maximal pieces
    between occurrences of [sep], at least one piece. *)
Fixpoint split (sep : ascii) (s : string) : list string :=
  match s with
  | EmptyString => [EmptyString]
  | String c s' =>
      if (c =? sep)%char then EmptyString :: split sep s'
      else match split sep s' with
           | piece :: pieces => String c piece :: pieces
           | [] => [String c EmptyString]
           end
  end.

(** [re.sub(cls, repl, s)] for a pattern [cls] that is a single character
    class: every character in the class is replaced by [repl]. *)
Fixpoint re_sub (cls : ascii -> bool) (repl : string) (s : string) : string :=
  match s with
  | EmptyString => EmptyString
  | String c s' =>
      if cls c then String.append repl (re_sub cls repl s')
      else String c (re_sub cls repl s')
  end.

(** [l[0]]: [IndexError] on an empty list. *)
Definition first {A : Type} (l : list A) : result A :=
  match l with
  | a :: _ => Ok a
  | [] => Raise IndexError
  end.

(** [list(filter(p, l))] for a predicate that may raise. *)
Fixpoint filter_list {A : Type} (p : A -> result bool) (l : list A)
  : result (list A) :=
  match l with
  | [] => Ok []
  | a :: l' =>
      keep <- p a ;;
      r <- filter_list p l' ;;
      Ok (if keep then a :: r else r)
  end.

(** [range(start, stop, step)] as the list of its values; a zero step is a
    [ValueError]. *)
Definition range_len (start stop step : Z) : Z :=
  if 0 <? step then
    if start <? stop then (stop - start - 1) / step + 1 else 0
  else
    if stop <? start then (start - stop - 1) / (- step) + 1 else 0.

Definition range (start stop step : Z) : result (list Z) :=
  if step =? 0 then Raise ValueError
  else Ok (map (fun k => start + Z.of_nat k * step)
               (seq 0 (Z.to_nat (range_len start stop step)))).

(** [l[i:j]]: a negative bound counts from the end, both bounds are then
    clamped to [0 .. len(l)]. *)
Definition slice_bound (len i : Z) : Z :=
  if i <? 0 then Z.max (i + len) 0 else Z.min i len.

Definition slice {A : Type} (l : list A) (i j : Z) : list A :=
  let len := Z.of_nat (List.length l) in
  let lo := slice_bound len i in
  let hi := slice_bound len j in
  firstn (Z.to_nat (hi - lo)) (skipn (Z.to_nat lo) l).

End Py.

Notation "x <- m ;; k" := (Py.bind m (fun x => k))
  (at level 61, m at next level, right associativity).
Notation "' pat <- m ;; k" := (Py.bind m (fun x => match x with pat => k end))
  (at level 61, pat pattern, m at next level, right associativity).

Import Py.

(** ** The inventory report

    One row of the supplier's spreadsheet as [download_stock] returns it: the
    columns "Код" (product code), "Количество" (quantity) and "Цена"
    (price), under transliterated names.  Code and quantity go through
    [str] and [int] in the code and are arbitrary cell values; the price is
    handed to [price_conversion (price: str)] and is a string. *)
Record watch : Type := Watch {
  Kod : value;
  Kolichestvo : value;
  Tsena : string
}.

(** The quantity rule shared by both [create_stocks]: [count] is
    [str(watch.get("Количество"))]; the last branch converts the cell
    itself, [int(watch.get("Количество"))]. *)
Definition stock_of (w : watch) : result Z :=
  let count := str (Kolichestvo w) in
  if String.eqb count ">10" then Ok 100
  else if String.eqb count "1" then Ok 0
  else int (Kolichestvo w).

(** ** seller.py *)

Module Seller.

Module Product.
Record t : Type := Make { offer_id : string }.
End Product.

(** The [result] object of the product list: [items], [total], [last_id]. *)
Module Page.
Record t : Type := Make {
  items : list Product.t;
  total : Z;
  last_id : string
}.
End Page.

(** [{"offer_id": ..., "stock": ...}] *)
Module Stock.
Record t : Type := Make { offer_id : string; stock : Z }.
End Stock.

Module Price.
Record t : Type := Make {
  auto_action_enabled : string;
  currency_code : string;
  offer_id : string;
  old_price : string;
  price : string
}.
End Price.

(** [re.sub("[^0-9]", "", price.split(".")[0])]; [split] never returns an
    empty list, so [[0]] is its head. *)
Definition price_conversion (price : string) : string :=
  re_sub (fun c => negb (is_digit c)) "" (hd "" (split "." price)).

(** [list(divide(lst, n))]: the generator is always consumed whole by
    [list(...)] in this program; the [ValueError] of a zero step is raised
    when the generator is first advanced. *)
Definition divide {A : Type} (lst : list A) (n : Z) : result (list (list A)) :=
  r <- range 0 (Z.of_nat (List.length lst)) n ;;
  Ok (map (fun i => slice lst i (i + n)) r).

(** First loop of [create_stocks], with the two lists it updates:
    [stocks] (appended to) and the caller's [offer_ids] (removed from). *)
Fixpoint create_stocks_loop (watch_remnants : list watch)
    (stocks : list Stock.t) (offer_ids : list string)
  : result (list Stock.t * list string) :=
  match watch_remnants with
  | [] => Ok (stocks, offer_ids)
  | w :: rest =>
      if contains (str (Kod w)) offer_ids then
        stock <- stock_of w ;;
        offer_ids' <- remove (str (Kod w)) offer_ids ;;
        create_stocks_loop rest
          (stocks ++ [Stock.Make (str (Kod w)) stock]) offer_ids'
      else create_stocks_loop rest stocks offer_ids
  end.

(** [create_stocks(watch_remnants, offer_ids)]: the returned list and the
    caller's [offer_ids] after the call.  (When [int] raises the caller's
    list stays as the loop left it; no caller looks at it then.) *)
Definition create_stocks (watch_remnants : list watch)
    (offer_ids : list string) : result (list Stock.t * list string) :=
  '(stocks, offer_ids') <- create_stocks_loop watch_remnants [] offer_ids ;;
  Ok (fold_left (fun st offer_id => st ++ [Stock.Make offer_id 0])
                offer_ids' stocks,
      offer_ids').

Fixpoint create_prices_loop (watch_remnants : list watch)
    (prices : list Price.t) (offer_ids : list string)
  : list Price.t * list string :=
  match watch_remnants with
  | [] => (prices, offer_ids)
  | w :: rest =>
      if contains (str (Kod w)) offer_ids then
        let price :=
          Price.Make "UNKNOWN" "RUB" (str (Kod w)) "0"
                     (price_conversion (Tsena w)) in
        create_prices_loop rest (prices ++ [price]) offer_ids
      else create_prices_loop rest prices offer_ids
  end.

(** [create_prices(watch_remnants, offer_ids)]: the returned list and the
    caller's [offer_ids] after the call. *)
Definition create_prices (watch_remnants : list watch)
    (offer_ids : list string) : list Price.t * list string :=
  create_prices_loop watch_remnants [] offer_ids.

(** The marketplace is reached through HTTP calls.  [W] is the state of the
    outside world; a call returns the decoded response and the next state
    or raises ([raise_for_status], transport errors). *)
Section Calls.

Variable W : Type.
Variable get_product_list :
  string -> string -> string -> W -> result (Page.t * W).
Variable update_stocks :
  list Stock.t -> string -> string -> W -> result W.

Variables client_id seller_token : string.

(** The [while True] loop of [get_offer_ids]; [None] when [fuel] requests
    did not reach the [break]. *)
Fixpoint get_offer_ids_loop (fuel : nat) (last_id : string)
    (product_list : list Product.t) (w : W)
  : option (result (list Product.t * W)) :=
  match fuel with
  | O => None
  | S fuel' =>
      match get_product_list last_id client_id seller_token w with
      | Raise e => Some (Raise e)
      | Ok (some_prod, w') =>
          let product_list' := product_list ++ Page.items some_prod in
          if Page.total some_prod =? Z.of_nat (List.length product_list')
          then Some (Ok (product_list', w'))
          else get_offer_ids_loop fuel' (Page.last_id some_prod)
                                  product_list' w'
      end
  end.

Definition get_offer_ids (fuel : nat) (w : W)
  : option (result (list string * W)) :=
  match get_offer_ids_loop fuel "" [] w with
  | None => None
  | Some r =>
      Some ('(product_list, w') <- r ;;
            Ok (fold_left (fun ids product => ids ++ [Product.offer_id product])
                          product_list [],
                w'))
  end.

(** [for some_stock in chunks: update_stocks(some_stock, ...)] *)
Fixpoint push_stocks (chunks : list (list Stock.t)) (w : W) : result W :=
  match chunks with
  | [] => Ok w
  | some_stock :: rest =>
      w' <- update_stocks some_stock client_id seller_token w ;;
      push_stocks rest w'
  end.

Definition upload_stocks (fuel : nat) (watch_remnants : list watch) (w : W)
  : option (result ((list Stock.t * list Stock.t) * W)) :=
  match get_offer_ids fuel w with
  | None => None
  | Some r =>
      Some ('(offer_ids, w1) <- r ;;
            '(stocks, _) <- create_stocks watch_remnants offer_ids ;;
            chunks <- divide stocks 100 ;;
            w2 <- push_stocks chunks w1 ;;
            let not_empty :=
              filter (fun stock => negb (Stock.stock stock =? 0)) stocks in
            Ok ((not_empty, stocks), w2))
  end.

End Calls.

(** The price upload and the body of [main]: the calls they add are
    [update_price] and [download_stock]. *)
Section PriceCalls.

Variable W : Type.
Variable get_product_list :
  string -> string -> string -> W -> result (Page.t * W).
Variable update_stocks :
  list Stock.t -> string -> string -> W -> result W.
Variable update_price :
  list Price.t -> string -> string -> W -> result W.
Variable download_stock : W -> result (list watch * W).

Variables client_id seller_token : string.

(** [for some_price in chunks: update_price(some_price, ...)] *)
Fixpoint push_prices (chunks : list (list Price.t)) (w : W) : result W :=
  match chunks with
  | [] => Ok w
  | some_price :: rest =>
      w' <- update_price some_price client_id seller_token w ;;
      push_prices rest w'
  end.

Definition upload_prices (fuel : nat) (watch_remnants : list watch) (w : W)
  : option (result (list Price.t * W)) :=
  match get_offer_ids W get_product_list client_id seller_token fuel w with
  | None => None
  | Some r =>
      Some ('(offer_ids, w1) <- r ;;
            let '(prices, _) := create_prices watch_remnants offer_ids in
            chunks <- divide prices 1000 ;;
            w2 <- push_prices chunks w1 ;;
            Ok (prices, w2))
  end.

(** The [try] block of [main]: one identifier list, fetched once, goes
    first to [create_stocks] and then, as that call left it, to
    [create_prices].  (The [except] clauses, which print and return, are
    not part of it.) *)
Definition main_try (fuel : nat) (w : W) : option (result W) :=
  match get_offer_ids W get_product_list client_id seller_token fuel w with
  | None => None
  | Some r =>
      Some ('(offer_ids, w1) <- r ;;
            '(watch_remnants, w2) <- download_stock w1 ;;
            '(stocks, offer_ids') <- create_stocks watch_remnants offer_ids ;;
            stock_chunks <- divide stocks 100 ;;
            w3 <- push_stocks W update_stocks client_id seller_token
                              stock_chunks w2 ;;
            let '(prices, _) := create_prices watch_remnants offer_ids' in
            price_chunks <- divide prices 900 ;;
            push_prices price_chunks w3)
  end.

End PriceCalls.

End Seller.

(** ** market.py

    [divide] and [price_conversion] are imported from [seller]. *)

Module Market.

Module Offer.
Record t : Type := Make { shopSku : string }.
End Offer.

Module Entry.
Record t : Type := Make { offer : Offer.t }.
End Entry.

(** [nextPageToken] is [None] when the key is absent. *)
Module Paging.
Record t : Type := Make { nextPageToken : option string }.
End Paging.

Module Page.
Record t : Type := Make {
  offerMappingEntries : list Entry.t;
  paging : Paging.t
}.
End Page.

(** [{"count": ..., "type": "FIT", "updatedAt": ...}] *)
Module Item.
Record t : Type := Make {
  count : Z;
  type : string;
  updatedAt : string
}.
End Item.

(** [{"sku": ..., "warehouseId": ..., "items": [...]}] *)
Module Sku.
Record t : Type := Make {
  sku : string;
  warehouseId : string;
  items : list Item.t
}.
End Sku.

Module PriceValue.
Record t : Type := Make { value : Z; currencyId : string }.
End PriceValue.

Module Price.
Record t : Type := Make { id : string; price : PriceValue.t }.
End Price.

(** [not page] for a token that is a string or [None]. *)
Definition falsy (page : option string) : bool :=
  match page with
  | None => true
  | Some s => String.eqb s ""
  end.

(** The page token sent with a request: the empty string for the first
    page, afterwards the token of the previous page. *)
Definition token (page : option string) : string :=
  match page with
  | None => ""
  | Some s => s
  end.

(** First loop of [create_stocks]; [date] is the time stamp taken once
    before the loop from the clock. *)
Fixpoint create_stocks_loop (watch_remnants : list watch)
    (warehouse_id date : string)
    (stocks : list Sku.t) (offer_ids : list string)
  : result (list Sku.t * list string) :=
  match watch_remnants with
  | [] => Ok (stocks, offer_ids)
  | w :: rest =>
      if contains (str (Kod w)) offer_ids then
        stock <- stock_of w ;;
        offer_ids' <- remove (str (Kod w)) offer_ids ;;
        create_stocks_loop rest warehouse_id date
          (stocks ++ [Sku.Make (str (Kod w)) warehouse_id
                               [Item.Make stock "FIT" date]])
          offer_ids'
      else create_stocks_loop rest warehouse_id date stocks offer_ids
  end.

(** [create_stocks(watch_remnants, offer_ids, warehouse_id)] at clock
    reading [date]: the returned list and the caller's [offer_ids] after
    the call. *)
Definition create_stocks (watch_remnants : list watch)
    (offer_ids : list string) (warehouse_id : string) (date : string)
  : result (list Sku.t * list string) :=
  '(stocks, offer_ids') <-
     create_stocks_loop watch_remnants warehouse_id date [] offer_ids ;;
  Ok (fold_left
        (fun st offer_id =>
           st ++ [Sku.Make offer_id warehouse_id [Item.Make 0 "FIT" date]])
        offer_ids' stocks,
      offer_ids').

Fixpoint create_prices_loop (watch_remnants : list watch)
    (prices : list Price.t) (offer_ids : list string)
  : result (list Price.t * list string) :=
  match watch_remnants with
  | [] => Ok (prices, offer_ids)
  | w :: rest =>
      if contains (str (Kod w)) offer_ids then
        value <- int_of_string (Seller.price_conversion (Tsena w)) ;;
        let price :=
          Price.Make (str (Kod w)) (PriceValue.Make value "RUR") in
        create_prices_loop rest (prices ++ [price]) offer_ids
      else create_prices_loop rest prices offer_ids
  end.

(** [create_prices(watch_remnants, offer_ids)]: the returned list and the
    caller's [offer_ids] after the call. *)
Definition create_prices (watch_remnants : list watch)
    (offer_ids : list string) : result (list Price.t * list string) :=
  create_prices_loop watch_remnants [] offer_ids.

Section Calls.

Variable W : Type.
Variable get_product_list :
  string -> string -> string -> W -> result (Page.t * W).
Variable update_stocks :
  list Sku.t -> string -> string -> W -> result W.

Variables campaign_id market_token : string.

(** The [while True] loop of [get_offer_ids]; [None] when [fuel] requests
    did not reach the [break]. *)
Fixpoint get_offer_ids_loop (fuel : nat) (page : string)
    (product_list : list Entry.t) (w : W)
  : option (result (list Entry.t * W)) :=
  match fuel with
  | O => None
  | S fuel' =>
      match get_product_list page campaign_id market_token w with
      | Raise e => Some (Raise e)
      | Ok (some_prod, w') =>
          let product_list' :=
            product_list ++ Page.offerMappingEntries some_prod in
          let page' := Paging.nextPageToken (Page.paging some_prod) in
          if falsy page' then Some (Ok (product_list', w'))
          else get_offer_ids_loop fuel' (token page') product_list' w'
      end
  end.

Definition get_offer_ids (fuel : nat) (w : W)
  : option (result (list string * W)) :=
  match get_offer_ids_loop fuel "" [] w with
  | None => None
  | Some r =>
      Some ('(product_list, w') <- r ;;
            Ok (fold_left
                  (fun ids product =>
                     ids ++ [Offer.shopSku (Entry.offer product)])
                  product_list [],
                w'))
  end.

Fixpoint push_stocks (chunks : list (list Sku.t)) (w : W) : result W :=
  match chunks with
  | [] => Ok w
  | some_stock :: rest =>
      w' <- update_stocks some_stock campaign_id market_token w ;;
      push_stocks rest w'
  end.

(** [stock.get("items")[0].get("count") != 0] *)
Definition has_stock (stock : Sku.t) : result bool :=
  item <- first (Sku.items stock) ;;
  Ok (negb (Item.count item =? 0)).

Definition upload_stocks (fuel : nat) (watch_remnants : list watch)
    (warehouse_id date : string) (w : W)
  : option (result ((list Sku.t * list Sku.t) * W)) :=
  match get_offer_ids fuel w with
  | None => None
  | Some r =>
      Some ('(offer_ids, w1) <- r ;;
            '(stocks, _) <-
               create_stocks watch_remnants offer_ids warehouse_id date ;;
            chunks <- Seller.divide stocks 2000 ;;
            w2 <- push_stocks chunks w1 ;;
            not_empty <- filter_list has_stock stocks ;;
            Ok ((not_empty, stocks), w2))
  end.

End Calls.

Section PriceCalls.

Variable W : Type.
Variable get_product_list :
  string -> string -> string -> W -> result (Page.t * W).
Variable update_price :
  list Price.t -> string -> string -> W -> result W.

Variables campaign_id market_token : string.

(** [for some_prices in chunks: update_price(some_prices, ...)] *)
Fixpoint push_prices (chunks : list (list Price.t)) (w : W) : result W :=
  match chunks with
  | [] => Ok w
  | some_prices :: rest =>
      w' <- update_price some_prices campaign_id market_token w ;;
      push_prices rest w'
  end.

Definition upload_prices (fuel : nat) (watch_remnants : list watch) (w : W)
  : option (result (list Price.t * W)) :=
  match get_offer_ids W get_product_list campaign_id market_token fuel w with
  | None => None
  | Some r =>
      Some ('(offer_ids, w1) <- r ;;
            '(prices, _) <- create_prices watch_remnants offer_ids ;;
            chunks <- Seller.divide prices 500 ;;
            w2 <- push_prices chunks w1 ;;
            Ok (prices, w2))
  end.

End PriceCalls.

End Market.

(** ** Reference descriptions used by the statements *)

(** The [k]-th window of width [m] of a list. *)
Definition window {A : Type} (m : nat) (l : list A) (k : nat) : list A :=
  firstn m (skipn (k * m) l).

(** [delete x l]: [l] without its first [x], [l] itself when it has none. *)
Fixpoint delete (x : string) (l : list string) : list string :=
  match l with
  | [] => []
  | y :: l' => if String.eqb y x then l' else y :: delete x l'
  end.

(** The product code of a row as the transforms compare it. *)
Definition code (w : watch) : string := str (Kod w).

(** The inventory rows that find their code in the identifier list when
    their turn comes, each one using up one occurrence of its code. *)
Fixpoint matched (watch_remnants : list watch) (offer_ids : list string)
  : list watch :=
  match watch_remnants with
  | [] => []
  | w :: rest =>
      if contains (code w) offer_ids
      then w :: matched rest (delete (code w) offer_ids)
      else matched rest offer_ids
  end.

(** The identifiers left over once every row has used up its code. *)
Fixpoint unmatched (watch_remnants : list watch) (offer_ids : list string)
  : list string :=
  match watch_remnants with
  | [] => offer_ids
  | w :: rest => unmatched rest (delete (code w) offer_ids)
  end.

(** [f] applied to every element, stopping at the first exception. *)
Fixpoint traverse {A B : Type} (f : A -> result B) (l : list A)
  : result (list B) :=
  match l with
  | [] => Ok []
  | a :: l' =>
      b <- f a ;;
      r <- traverse f l' ;;
      Ok (b :: r)
  end.

(** [subseq s l]: [s] is [l] with some elements left out, order kept. *)
Inductive subseq {A : Type} : list A -> list A -> Prop :=
| subseq_nil : subseq [] []
| subseq_skip s l a : subseq s l -> subseq s (a :: l)
| subseq_keep s l a : subseq s l -> subseq (a :: s) (a :: l).

(** The Market item that carries the same identifier and quantity as a
    Seller item. *)
Definition to_sku (warehouse_id date : string) (s : Seller.Stock.t)
  : Market.Sku.t :=
  Market.Sku.Make (Seller.Stock.offer_id s) warehouse_id
    [Market.Item.Make (Seller.Stock.stock s) "FIT" date].

(** Seller items for rows [ws] with quantities [qs], and zero-stock items
    for identifiers. *)
Definition stock_items (ws : list watch) (qs : list Z)
  : list Seller.Stock.t :=
  map (fun p => Seller.Stock.Make (code (fst p)) (snd p)) (combine ws qs).

Definition zero_items (ids : list string) : list Seller.Stock.t :=
  map (fun id => Seller.Stock.Make id 0) ids.

(** The rows a price transform keeps: those whose code is in the
    identifier list. *)
Definition known (offer_ids : list string) (w : watch) : bool :=
  contains (code w) offer_ids.

(** The Seller price item of a row. *)
Definition seller_price (w : watch) : Seller.Price.t :=
  Seller.Price.Make "UNKNOWN" "RUB" (code w) "0"
                    (Seller.price_conversion (Tsena w)).

(** The integer price of a row as the Market transform converts it. *)
Definition price_value (w : watch) : result Z :=
  int_of_string (Seller.price_conversion (Tsena w)).

(** The Market price items of rows [ws] with integer prices [vs]. *)
Definition market_prices (ws : list watch) (vs : list Z)
  : list Market.Price.t :=
  map (fun p => Market.Price.Make (code (fst p))
                  (Market.PriceValue.Make (snd p) "RUR"))
      (combine ws vs).

(** *** Page streams

    The pages the marketplace serves when each request carries the cursor
    of the page before it, the first one the empty cursor. *)
Section SellerPages.

Variable W : Type.
Variable get_product_list :
  string -> string -> string -> W -> result (Seller.Page.t * W).
Variables client_id seller_token : string.

Fixpoint seller_pages (n : nat) (last_id : string) (w : W)
  : result (list Seller.Page.t * W) :=
  match n with
  | O => Ok ([], w)
  | S n' =>
      '(p, w1) <- get_product_list last_id client_id seller_token w ;;
      '(ps, w2) <- seller_pages n' (Seller.Page.last_id p) w1 ;;
      Ok (p :: ps, w2)
  end.

End SellerPages.

(** All items of a list of Seller pages, in page order. *)
Definition seller_items (ps : list Seller.Page.t) : list Seller.Product.t :=
  List.concat (map Seller.Page.items ps).

(** The Seller signal on the pages [ps], [before] items having been
    accumulated earlier: the last page reports as [total] the number of
    items accumulated with it. *)
Definition seller_reached (before : nat) (ps : list Seller.Page.t) : bool :=
  match rev ps with
  | [] => false
  | p :: _ =>
      Seller.Page.total p
      =? Z.of_nat (before + List.length (seller_items ps))
  end.

Section MarketPages.

Variable W : Type.
Variable get_product_list :
  string -> string -> string -> W -> result (Market.Page.t * W).
Variables campaign_id market_token : string.

Fixpoint market_pages (n : nat) (page : string) (w : W)
  : result (list Market.Page.t * W) :=
  match n with
  | O => Ok ([], w)
  | S n' =>
      '(p, w1) <- get_product_list page campaign_id market_token w ;;
      '(ps, w2) <-
         market_pages n'
           (Market.token (Market.Paging.nextPageToken (Market.Page.paging p)))
           w1 ;;
      Ok (p :: ps, w2)
  end.

End MarketPages.

(** All entries of a list of Market pages, in page order. *)
Definition market_entries (ps : list Market.Page.t) : list Market.Entry.t :=
  List.concat (map Market.Page.offerMappingEntries ps).

(** The Market signal on the pages [ps]: the last page has no next-page
    token, or an empty one. *)
Definition market_reached (ps : list Market.Page.t) : bool :=
  match rev ps with
  | [] => false
  | p :: _ => Market.falsy (Market.Paging.nextPageToken (Market.Page.paging p))
  end.

(** A marketplace that serves the two-page sequence
    [{items: [x, y], total: 3, last_id: "p1"}],
    [{items: [z], total: 3, last_id: ""}]
    and counts the requests it has answered. *)
Definition two_pages (last_id _ _ : string) (served : nat)
  : result (Seller.Page.t * nat) :=
  if String.eqb last_id "" then
    Ok (Seller.Page.Make
          [Seller.Product.Make "x"; Seller.Product.Make "y"] 3 "p1",
        S served)
  else if String.eqb last_id "p1" then
    Ok (Seller.Page.Make [Seller.Product.Make "z"] 3 "", S served)
  else Raise HTTPError.

(** A marketplace that accepts every stock update and counts it. *)
Definition accept_stocks (stocks : list Seller.Stock.t) (_ _ : string)
    (served : nat) : result nat :=
  Ok (S served).

(** Items with stock left, Seller schema. *)
Definition in_stock (s : Seller.Stock.t) : bool :=
  negb (Seller.Stock.stock s =? 0).

(** The count of the first entry of [items], Market schema. *)
Definition first_count (s : Market.Sku.t) : Z :=
  match Market.Sku.items s with
  | item :: _ => Market.Item.count item
  | [] => 0
  end.

(** The first inventory row that carries the code [x]. *)
Definition first_row (x : string) (wr : list watch) : option watch :=
  find (fun w => String.eqb (code w) x) wr.

(** A marketplace that accepts every price update and counts it, and a
    supplier site that serves a fixed report. *)
Definition accept_prices (prices : list Seller.Price.t) (_ _ : string)
    (served : nat) : result nat :=
  Ok (S served).

Definition serve_report (report : list watch) (served : nat)
  : result (list watch * nat) :=
  Ok (report, served).

(** A Market that serves one last page with the single offer "A", and
    one that accepts every price update and counts it. *)
Definition last_page (page _ _ : string) (served : nat)
  : result (Market.Page.t * nat) :=
  Ok (Market.Page.Make [Market.Entry.Make (Market.Offer.Make "A")]
                       (Market.Paging.Make None),
      S served).

Definition accept_offers (prices : list Market.Price.t) (_ _ : string)
    (served : nat) : result nat :=
  Ok (S served).

(** A marketplace that refuses every stock update. *)
Definition refuse_stocks (stocks : list Seller.Stock.t) (_ _ : string)
    (served : nat) : result nat :=
  Raise HTTPError.

(** A Seller marketplace whose every page holds two items and reports a
    total of one, and a Market whose every page names a next page. *)
Definition overfull_pages (last_id _ _ : string) (served : nat)
  : result (Seller.Page.t * nat) :=
  Ok (Seller.Page.Make
        [Seller.Product.Make "x"; Seller.Product.Make "y"] 1 "p",
      S served).

Definition endless_pages (page _ _ : string) (served : nat)
  : result (Market.Page.t * nat) :=
  Ok (Market.Page.Make [Market.Entry.Make (Market.Offer.Make "A")]
                       (Market.Paging.Make (Some "next")),
      S served).

(** A Market that accepts every stock update and counts it. *)
Definition accept_skus (stocks : list Market.Sku.t) (_ _ : string)
    (served : nat) : result nat :=
  Ok (S served).

(* ================================================================== *)
(** * Properties *)

(** ** The chunker *)

Section Chunks.

Context {A : Type}.

Lemma firstn_clamp (l : list A) :
  forall a b : nat,
    Nat.min a (List.length l) = Nat.min b (List.length l) ->
    firstn a l = firstn b l.
Proof.
  induction l as [|x l IH]; intros a b H.
  - now rewrite !firstn_nil.
  - destruct a, b; simpl in *; try reflexivity; try discriminate.
    f_equal. apply IH. lia.
Qed.


Lemma window_shift (m : nat) (l : list A) (k : nat) :
  window m l (S k) = window m (skipn m l) k.
Proof.
  unfold window. rewrite skipn_skipn. do 2 f_equal. lia.
Qed.

Lemma windows_concat (m cnt : nat) :
  forall l : list A,
    (List.length l <= cnt * m)%nat ->
    List.concat (map (fun k => window m l k) (seq 0 cnt)) = l.
Proof.
  induction cnt as [|cnt IH]; intros l Hlen.
  - destruct l; [reflexivity | simpl in Hlen; lia].
  - rewrite <- cons_seq, <- seq_shift. cbn [map List.concat]. rewrite map_map.
    rewrite (map_ext _ (fun k => window m (skipn m l) k))
      by (intros k; apply window_shift).
    rewrite IH by (rewrite length_skipn; lia).
    unfold window at 1. simpl skipn. apply firstn_skipn.
Qed.

Lemma window_length (m : nat) (l : list A) (k : nat) :
  List.length (window m l k) = Nat.min m (List.length l - k * m).
Proof.
  unfold window. rewrite length_firstn, length_skipn. reflexivity.
Qed.

(** A slice at non-negative bounds [k*n .. k*n+n] is the [k]-th window. *)
Lemma slice_window (l : list A) (n : Z) (k : nat) :
  0 < n ->
  slice l (Z.of_nat k * n) (Z.of_nat k * n + n)
  = window (Z.to_nat n) l k.
Proof.
  intros Hn. unfold window, slice, slice_bound.
  set (len := Z.of_nat (List.length l)).
  assert (Hk : 0 <= Z.of_nat k * n) by nia.
  destruct (Z.ltb_spec (Z.of_nat k * n) 0) as [?|_]; [lia|].
  destruct (Z.ltb_spec (Z.of_nat k * n + n) 0) as [?|_]; [lia|].
  assert (Hkm : (k * Z.to_nat n)%nat = Z.to_nat (Z.of_nat k * n)) by nia.
  rewrite Hkm.
  destruct (Z_le_gt_dec (Z.of_nat k * n) len) as [Hin|Hout].
  - rewrite (Z.min_l (Z.of_nat k * n) len) by lia.
    apply firstn_clamp. rewrite length_skipn. subst len. lia.
  - rewrite !Z.min_r by lia. rewrite Z.sub_diag. simpl firstn.
    rewrite !skipn_all2 by (subst len; lia).
    now rewrite firstn_nil.
Qed.

End Chunks.

(** Number of chunks for a positive width: [ceil(len / n)]. *)
Lemma range_len_ceil (len n : Z) :
  0 <= len -> 0 < n ->
  range_len 0 len n = (len + n - 1) / n.
Proof.
  intros Hlen Hn. unfold range_len.
  destruct (Z.ltb_spec 0 n) as [_|?]; [|lia].
  destruct (Z.ltb_spec 0 len) as [Hpos|Hzero].
  - replace (len + n - 1) with (len - 0 - 1 + 1 * n) by lia.
    rewrite Z.div_add by lia. reflexivity.
  - assert (len = 0) by lia. subst len.
    symmetry. apply Z.div_small. lia.
Qed.

Lemma divide_windows {A : Type} (lst : list A) (n : Z) :
  0 < n ->
  Seller.divide lst n
  = Ok (map (fun k => window (Z.to_nat n) lst k)
            (seq 0 (Z.to_nat ((Z.of_nat (List.length lst) + n - 1) / n)))).
Proof.
  intros Hn. unfold Seller.divide, range.
  destruct (Z.eqb_spec n 0) as [?|_]; [lia|].
  cbn [bind]. rewrite map_map, range_len_ceil by lia.
  f_equal. apply map_ext. intros k.
  rewrite Z.add_0_l. now apply slice_window.
Qed.

(** C3.  For a positive chunk size [n], [divide] yields chunks whose
    concatenation is the input list, each chunk but the last has length
    exactly [n], no chunk is empty or longer than [n], and there are
    [ceil(len(lst) / n)] chunks. *)
Theorem divide_partitions {A : Type} (lst : list A) (n : Z) :
  0 < n ->
  exists chunks : list (list A),
    Seller.divide lst n = Ok chunks
    /\ List.concat chunks = lst
    /\ (forall i : nat,
           (i + 1 < List.length chunks)%nat ->
           Z.of_nat (List.length (nth i chunks [])) = n)
    /\ (forall c, In c chunks -> 0 < Z.of_nat (List.length c) <= n)
    /\ Z.of_nat (List.length chunks) = (Z.of_nat (List.length lst) + n - 1) / n.
Proof.
  intros Hn.
  set (len := Z.of_nat (List.length lst)).
  set (cnt := Z.to_nat ((len + n - 1) / n)).
  assert (Hq : 0 <= (len + n - 1) / n)
    by (apply Z.div_pos; subst len; lia).
  assert (Hceil : len <= Z.of_nat cnt * n < len + n).
  { subst cnt. rewrite Z2Nat.id by exact Hq.
    pose proof (Z.mul_div_le (len + n - 1) n Hn).
    pose proof (Z.mul_succ_div_gt (len + n - 1) n Hn).
    lia. }
  exists (map (fun k => window (Z.to_nat n) lst k) (seq 0 cnt)).
  split; [now apply divide_windows|].
  split; [|split; [|split]].
  - apply windows_concat. subst len. nia.
  - intros i Hi. rewrite length_map, length_seq in Hi.
    rewrite (nth_indep _ [] (window (Z.to_nat n) lst O))
      by (rewrite length_map, length_seq; lia).
    rewrite (map_nth (fun k => window (Z.to_nat n) lst k)).
    rewrite seq_nth by lia. rewrite window_length.
    subst len. nia.
  - intros c Hc. apply in_map_iff in Hc. destruct Hc as [k [<- Hk]].
    apply in_seq in Hk. rewrite window_length. subst len. nia.
  - rewrite length_map, length_seq. subst cnt. now rewrite Z2Nat.id.
Qed.

Lemma divide_partitions_witness :
  0 < 3
  /\ exists chunks : list (list Z),
      Seller.divide [1; 2; 3; 4; 5; 6; 7] 3 = Ok chunks
      /\ List.concat chunks = [1; 2; 3; 4; 5; 6; 7]
      /\ (forall i : nat,
             (i + 1 < List.length chunks)%nat ->
             Z.of_nat (List.length (nth i chunks [])) = 3)
      /\ (forall c, In c chunks -> 0 < Z.of_nat (List.length c) <= 3)
      /\ Z.of_nat (List.length chunks) = (7 + 3 - 1) / 3.
Proof.
  split; [lia|]. apply (divide_partitions [1; 2; 3; 4; 5; 6; 7] 3). lia.
Defined.

(** C8 (as amended).  With a chunk size [n <= 0], [divide] either raises
    or returns without chunks: [n = 0] raises [ValueError] for every list,
    and [n < 0] raises nothing and yields no chunk at all, whatever the
    list holds. *)
Theorem divide_nonpositive {A : Type} (lst : list A) (n : Z) :
  n <= 0 ->
  (n = 0 -> Seller.divide lst n = Raise ValueError)
  /\ (n < 0 -> Seller.divide lst n = Ok []).
Proof.
  intros _. split.
  - intros ->. reflexivity.
  - intros Hneg. unfold Seller.divide, range, range_len.
    destruct (Z.eqb_spec n 0) as [?|_]; [lia|].
    destruct (Z.ltb_spec 0 n) as [?|_]; [lia|].
    destruct (Z.ltb_spec (Z.of_nat (List.length lst)) 0) as [?|_]; [lia|].
    reflexivity.
Qed.

Lemma divide_nonpositive_witness :
  (0 <= 0 /\ Seller.divide [1; 2; 3] 0 = Raise ValueError)
  /\ (-2 <= 0 /\ Seller.divide [1; 2; 3] (-2) = Ok []).
Proof.
  split; split; try lia.
  - apply (divide_nonpositive [1; 2; 3] 0); lia.
  - apply (divide_nonpositive [1; 2; 3] (-2)); lia.
Defined.

(** C8 as stated fails: a negative chunk size is no error, and the three
    elements of the list are in no chunk. *)
Lemma divide_negative_counterexample :
  -1 <= 0
  /\ Seller.divide [1; 2; 3] (-1) = Ok []
  /\ ~ (exists e, Seller.divide [1; 2; 3] (-1) = Raise e)
  /\ List.concat (@nil (list Z)) <> [1; 2; 3].
Proof.
  split; [lia|]. split; [reflexivity|]. split.
  - intros [e He]. discriminate He.
  - discriminate.
Qed.

(** ** The price normaliser *)

Lemma split_hd_no_sep (sep : ascii) (pre : string) :
  (forall c, In c (list_ascii_of_string pre) -> c <> sep) ->
  hd "" (split sep pre) = pre.
Proof.
  induction pre as [|c pre IH]; intros Hpre; [reflexivity|].
  cbn [split]. destruct (Ascii.eqb_spec c sep) as [->|_].
  - exfalso. apply (Hpre sep); [now left | reflexivity].
  - specialize (IH (fun d Hd => Hpre d (or_intror Hd))).
    destruct (split sep pre); cbn [hd] in *; now subst.
Qed.

Lemma split_hd_before_sep (sep : ascii) (pre rest : string) :
  (forall c, In c (list_ascii_of_string pre) -> c <> sep) ->
  hd "" (split sep (pre ++ String sep rest)%string) = pre.
Proof.
  induction pre as [|c pre IH]; intros Hpre.
  - cbn. now rewrite Ascii.eqb_refl.
  - cbn [String.append split]. destruct (Ascii.eqb_spec c sep) as [->|_].
    + exfalso. apply (Hpre sep); [now left | reflexivity].
    + specialize (IH (fun d Hd => Hpre d (or_intror Hd))).
      destruct (split sep (pre ++ String sep rest)%string);
        cbn [hd] in *; now subst.
Qed.

Lemma re_sub_delete (keep : ascii -> bool) (s : string) :
  re_sub (fun c => negb (keep c)) "" s
  = string_of_list_ascii (filter keep (list_ascii_of_string s)).
Proof.
  induction s as [|c s IH]; [reflexivity|].
  cbn [re_sub list_ascii_of_string filter].
  destruct (keep c); cbn; now rewrite IH.
Qed.

Lemma price_conversion_prefix (price pre post : string) :
  price = (pre ++ post)%string ->
  (forall c, In c (list_ascii_of_string pre) -> c <> "."%char) ->
  (post = "" \/ exists rest, post = String "." rest) ->
  Seller.price_conversion price
  = string_of_list_ascii (filter is_digit (list_ascii_of_string pre)).
Proof.
  intros -> Hpre Hpost.
  unfold Seller.price_conversion. rewrite re_sub_delete. do 3 f_equal.
  destruct Hpost as [->|[rest ->]].
  - replace (pre ++ "")%string with pre; [now apply split_hd_no_sep|].
    clear Hpre. induction pre as [|c pre IH]; cbn; congruence.
  - now apply split_hd_before_sep.
Qed.

(** C4.  [price_conversion] returns the digits of the part of the price
    before its first ['.'] (of the whole price when it has none), in
    order; the four sample prices normalise to "5990", "100", "0" and
    the empty string. *)
Theorem price_conversion_digits_before_dot :
  (forall price pre post : string,
      price = (pre ++ post)%string ->
      (forall c, In c (list_ascii_of_string pre) -> c <> "."%char) ->
      (post = "" \/ exists rest, post = String "." rest) ->
      Seller.price_conversion price
      = string_of_list_ascii (filter is_digit (list_ascii_of_string pre)))
  /\ Seller.price_conversion "5'990.00 руб." = "5990"
  /\ Seller.price_conversion "100.00" = "100"
  /\ Seller.price_conversion "0.99" = "0"
  /\ Seller.price_conversion "abc.00" = "".
Proof.
  split; [exact price_conversion_prefix | repeat split; reflexivity].
Qed.

Lemma price_conversion_digits_before_dot_witness :
  Seller.price_conversion "5'990.00 руб."
  = string_of_list_ascii (filter is_digit (list_ascii_of_string "5'990")).
Proof.
  apply (proj1 price_conversion_digits_before_dot
               "5'990.00 руб." "5'990" ".00 руб.").
  - reflexivity.
  - intros c Hc. cbn in Hc.
    repeat (destruct Hc as [<-|Hc]; [discriminate|]). destruct Hc.
  - right. eexists. reflexivity.
Defined.

(** ** Lists of identifiers *)

Lemma contains_In (x : string) (l : list string) :
  contains x l = true <-> In x l.
Proof.
  induction l as [|y l IH]; cbn; [intuition discriminate|].
  destruct (String.eqb_spec y x); intuition.
Qed.

Lemma contains_false (x : string) (l : list string) :
  contains x l = false <-> ~ In x l.
Proof.
  rewrite <- contains_In. destruct (contains x l); intuition congruence.
Qed.

Lemma remove_delete (x : string) (l : list string) :
  contains x l = true -> remove x l = Ok (delete x l).
Proof.
  induction l as [|y l IH]; cbn; [discriminate|].
  destruct (String.eqb y x); [reflexivity|].
  intros H. now rewrite IH.
Qed.

Lemma delete_absent (x : string) (l : list string) :
  ~ In x l -> delete x l = l.
Proof.
  induction l as [|y l IH]; cbn; [reflexivity|].
  intros H. destruct (String.eqb_spec y x) as [->|_]; [tauto|].
  f_equal. apply IH. tauto.
Qed.

Lemma delete_split (x : string) (l : list string) :
  In x l ->
  exists a b, l = a ++ x :: b /\ ~ In x a /\ delete x l = a ++ b.
Proof.
  induction l as [|y l IH]; cbn; [tauto|].
  intros H. destruct (String.eqb_spec y x) as [->|Hne].
  - exists [], l. cbn. tauto.
  - destruct H as [H|H]; [contradiction|].
    destruct (IH H) as (a & b & -> & Ha & ->).
    exists (y :: a), b. cbn. intuition.
Qed.

Lemma count_occ_delete (c x : string) (l : list string) :
  count_occ string_dec (delete c l) x
  = (count_occ string_dec l x - (if string_dec c x then 1 else 0))%nat.
Proof.
  induction l as [|y l IH]; cbn; [reflexivity|].
  destruct (String.eqb_spec y c) as [->|Hne].
  - destruct (string_dec c x); lia.
  - cbn. rewrite IH.
    destruct (string_dec y x) as [->|_], (string_dec c x) as [->|_];
      try congruence; lia.
Qed.

Lemma subseq_refl {A : Type} (l : list A) : subseq l l.
Proof. induction l; now constructor. Qed.

Lemma subseq_trans {A : Type} (l : list A) :
  forall s t, subseq s t -> subseq t l -> subseq s l.
Proof.
  induction l as [|a l IH]; intros s t Hst Htl.
  - inversion Htl; subst. exact Hst.
  - inversion Htl; subst.
    + constructor. eapply IH; eassumption.
    + inversion Hst; subst.
      * constructor. eapply IH; eassumption.
      * apply subseq_keep. eapply IH; eassumption.
Qed.

Lemma delete_subseq (x : string) (l : list string) : subseq (delete x l) l.
Proof.
  induction l as [|y l IH]; cbn; [constructor|].
  destruct (String.eqb y x).
  - constructor. apply subseq_refl.
  - now apply subseq_keep.
Qed.

Lemma traverse_length {A B : Type} (f : A -> result B) (l : list A) :
  forall r, traverse f l = Ok r -> List.length r = List.length l.
Proof.
  induction l as [|a l IH]; cbn; intros r H.
  - now inversion H.
  - destruct (f a); [|discriminate]. cbn in H.
    destruct (traverse f l); [|discriminate]. cbn in H.
    inversion H; subst. cbn. f_equal. now apply IH.
Qed.

Lemma traverse_ok {A B : Type} (f : A -> result B) (l : list A) :
  Forall (fun a => is_ok (f a) = true) l <-> is_ok (traverse f l) = true.
Proof.
  induction l as [|a l IH]; cbn.
  - split; [reflexivity | constructor].
  - split.
    + intros H. inversion H as [|? ? Ha Hl]; subst.
      destruct (f a); [|discriminate]. cbn.
      apply IH in Hl. destruct (traverse f l); [reflexivity | discriminate].
    + intros H. destruct (f a) eqn:Ea; [|discriminate]. cbn in H.
      constructor; [now rewrite Ea|].
      apply IH. destruct (traverse f l); [reflexivity | discriminate].
Qed.

(** ** What the matching loop leaves *)

Lemma matched_subseq (wr : list watch) :
  forall ids, subseq (matched wr ids) wr.
Proof.
  induction wr as [|w wr IH]; intros ids; cbn; [constructor|].
  destruct (contains (code w) ids); now constructor.
Qed.

Lemma unmatched_subseq (wr : list watch) :
  forall ids, subseq (unmatched wr ids) ids.
Proof.
  induction wr as [|w wr IH]; intros ids; cbn; [apply subseq_refl|].
  eapply subseq_trans; [apply IH | apply delete_subseq].
Qed.

Lemma matched_unmatched_perm (wr : list watch) :
  forall ids,
    Permutation (map code (matched wr ids) ++ unmatched wr ids) ids.
Proof.
  induction wr as [|w wr IH]; intros ids; cbn; [reflexivity|].
  destruct (contains (code w) ids) eqn:Hc.
  - apply contains_In in Hc.
    destruct (delete_split _ _ Hc) as (a & b & Hids & _ & Hdel).
    cbn. rewrite Hids at 3. rewrite <- Permutation_middle.
    constructor. rewrite <- Hdel. apply IH.
  - apply contains_false in Hc. rewrite (delete_absent _ _ Hc). apply IH.
Qed.

Lemma unmatched_count (wr : list watch) :
  forall ids x,
    count_occ string_dec (unmatched wr ids) x
    = (count_occ string_dec ids x
       - count_occ string_dec (map code wr) x)%nat.
Proof.
  induction wr as [|w wr IH]; intros ids x; cbn; [lia|].
  rewrite IH, count_occ_delete.
  destruct (string_dec (code w) x); lia.
Qed.

(** ** The stock transform *)

Lemma seller_stocks_loop (wr : list watch) :
  forall st ids,
    Seller.create_stocks_loop wr st ids
    = (qs <- traverse stock_of (matched wr ids) ;;
       Ok (st ++ stock_items (matched wr ids) qs, unmatched wr ids)).
Proof.
  induction wr as [|w wr IH]; intros st ids; cbn.
  - unfold stock_items. cbn. now rewrite app_nil_r.
  - fold (code w). destruct (contains (code w) ids) eqn:Hc.
    + cbn. rewrite (remove_delete _ _ Hc).
      destruct (stock_of w) as [q|e]; cbn; [|reflexivity].
      rewrite IH.
      destruct (traverse stock_of (matched wr (delete (code w) ids)));
        cbn; [|reflexivity].
      unfold stock_items. cbn. now rewrite <- app_assoc.
    + apply contains_false in Hc. rewrite (delete_absent _ _ Hc). apply IH.
Qed.

Lemma fold_append {A B : Type} (f : A -> B) (l : list A) :
  forall st, fold_left (fun st a => st ++ [f a]) l st = st ++ map f l.
Proof.
  induction l as [|a l IH]; intros st; cbn.
  - now rewrite app_nil_r.
  - rewrite IH, <- app_assoc. reflexivity.
Qed.

Lemma seller_create_stocks (wr : list watch) (ids : list string) :
  Seller.create_stocks wr ids
  = (qs <- traverse stock_of (matched wr ids) ;;
     Ok (stock_items (matched wr ids) qs ++ zero_items (unmatched wr ids),
         unmatched wr ids)).
Proof.
  unfold Seller.create_stocks. rewrite seller_stocks_loop.
  destruct (traverse stock_of (matched wr ids)); cbn; [|reflexivity].
  now rewrite (fold_append (fun id => Seller.Stock.Make id 0)).
Qed.

Lemma market_stocks_loop (wh date : string) (wr : list watch) :
  forall st ids,
    Market.create_stocks_loop wr wh date (map (to_sku wh date) st) ids
    = ('(st', ids') <- Seller.create_stocks_loop wr st ids ;;
       Ok (map (to_sku wh date) st', ids')).
Proof.
  induction wr as [|w wr IH]; intros st ids; cbn; [reflexivity|].
  destruct (contains (str (Kod w)) ids); [|apply IH].
  destruct (stock_of w) as [q|e]; cbn; [|reflexivity].
  destruct (remove (str (Kod w)) ids) as [ids1|e]; cbn; [|reflexivity].
  rewrite <- IH, map_app. reflexivity.
Qed.

(** The Market transform is the Seller transform with every item recast
    in the Market schema. *)
Lemma market_create_stocks (wr : list watch) (ids : list string)
    (wh date : string) :
  Market.create_stocks wr ids wh date
  = ('(out, ids') <- Seller.create_stocks wr ids ;;
     Ok (map (to_sku wh date) out, ids')).
Proof.
  unfold Market.create_stocks, Seller.create_stocks.
  pose proof (market_stocks_loop wh date wr [] ids) as Hloop.
  cbn [map] in Hloop. rewrite Hloop. clear Hloop.
  destruct (Seller.create_stocks_loop wr [] ids) as [[st ids']|e];
    cbn; [|reflexivity].
  rewrite (fold_append (fun id => Seller.Stock.Make id 0)).
  rewrite (fold_append
             (fun id => Market.Sku.Make id wh [Market.Item.Make 0 "FIT" date])).
  rewrite map_app, map_map. reflexivity.
Qed.

Lemma stock_items_ids (ws : list watch) (qs : list Z) :
  List.length qs = List.length ws ->
  map Seller.Stock.offer_id (stock_items ws qs) = map code ws.
Proof.
  unfold stock_items. revert qs.
  induction ws as [|w ws IH]; intros [|q qs] H; cbn in *;
    try discriminate; try reflexivity.
  f_equal. apply IH. lia.
Qed.

Lemma zero_items_ids (ids : list string) :
  map Seller.Stock.offer_id (zero_items ids) = ids.
Proof.
  unfold zero_items. rewrite map_map. cbn. apply map_id.
Qed.

Lemma seller_stocks_ok (wr : list watch) (ids : list string) :
  Forall (fun w => is_ok (stock_of w) = true) (matched wr ids) <->
  is_ok (Seller.create_stocks wr ids) = true.
Proof.
  rewrite traverse_ok, seller_create_stocks.
  destruct (traverse stock_of (matched wr ids)); cbn; tauto.
Qed.

(** C1 (as amended).  When every row that finds its code in the
    identifier list carries a quantity the rule can convert, both
    [create_stocks] return the same payload ([to_sku] recasts it for the
    Market): as long as the identifier list, holding every identifier as
    often as the list does (once each when the list has no duplicates),
    first the items of the matched rows in inventory order, then a
    zero-stock item for each leftover identifier in the list's order.
    When some matched row carries another quantity, both raise. *)
Theorem create_stocks_payload (wr : list watch) (ids : list string) :
  (Forall (fun w => is_ok (stock_of w) = true) (matched wr ids) ->
   exists out qs,
     Seller.create_stocks wr ids = Ok (out, unmatched wr ids)
     /\ (forall wh date,
            Market.create_stocks wr ids wh date
            = Ok (map (to_sku wh date) out, unmatched wr ids))
     /\ List.length out = List.length ids
     /\ Permutation (map Seller.Stock.offer_id out) ids
     /\ (forall x,
            count_occ string_dec (map Seller.Stock.offer_id out) x
            = count_occ string_dec ids x)
     /\ (NoDup ids -> NoDup (map Seller.Stock.offer_id out))
     /\ traverse stock_of (matched wr ids) = Ok qs
     /\ out = stock_items (matched wr ids) qs
              ++ zero_items (unmatched wr ids)
     /\ map Seller.Stock.offer_id out
        = map code (matched wr ids) ++ unmatched wr ids
     /\ subseq (matched wr ids) wr
     /\ subseq (unmatched wr ids) ids)
  /\ (~ Forall (fun w => is_ok (stock_of w) = true) (matched wr ids) ->
      exists e,
        Seller.create_stocks wr ids = Raise e
        /\ forall wh date, Market.create_stocks wr ids wh date = Raise e).
Proof.
  split.
  - intros Hok. apply traverse_ok in Hok.
    destruct (traverse stock_of (matched wr ids)) as [qs|e] eqn:Hqs;
      [clear Hok | discriminate].
    pose proof (traverse_length _ _ _ Hqs) as Hlen.
    set (out := stock_items (matched wr ids) qs
                ++ zero_items (unmatched wr ids)).
    assert (Hsel : Seller.create_stocks wr ids = Ok (out, unmatched wr ids))
      by (rewrite seller_create_stocks, Hqs; reflexivity).
    assert (Hids : map Seller.Stock.offer_id out
                   = map code (matched wr ids) ++ unmatched wr ids)
      by (subst out; rewrite map_app, stock_items_ids, zero_items_ids;
          [reflexivity | exact Hlen]).
    assert (Hperm : Permutation (map Seller.Stock.offer_id out) ids)
      by (rewrite Hids; apply matched_unmatched_perm).
    exists out, qs. repeat split; try assumption.
    + intros wh date. rewrite market_create_stocks, Hsel. reflexivity.
    + rewrite <- (length_map Seller.Stock.offer_id).
      now apply Permutation_length.
    + intros x. now apply Permutation_count_occ.
    + intros Hnd. eapply Permutation_NoDup; [symmetry|]; eassumption.
    + apply matched_subseq.
    + apply unmatched_subseq.
  - intros Hbad. rewrite seller_stocks_ok in Hbad.
    destruct (Seller.create_stocks wr ids) as [r|e] eqn:Hsel;
      [now elim Hbad|].
    exists e. split; [reflexivity|].
    intros wh date. rewrite market_create_stocks, Hsel. reflexivity.
Qed.

Lemma create_stocks_payload_witness :
  Forall (fun w => is_ok (stock_of w) = true)
         (matched [Watch (VStr "A") (VStr ">10") "100.00";
                   Watch (VStr "B") (VStr "1") "50.00"] ["A"; "B"; "C"])
  /\ exists out,
      Seller.create_stocks [Watch (VStr "A") (VStr ">10") "100.00";
                            Watch (VStr "B") (VStr "1") "50.00"]
                           ["A"; "B"; "C"]
      = Ok (out, ["C"])
      /\ List.length out = 3%nat
      /\ map Seller.Stock.offer_id out = ["A"; "B"; "C"].
Proof.
  assert (H : Forall (fun w => is_ok (stock_of w) = true)
                     (matched [Watch (VStr "A") (VStr ">10") "100.00";
                               Watch (VStr "B") (VStr "1") "50.00"]
                              ["A"; "B"; "C"]))
    by (repeat constructor).
  split; [exact H|].
  destruct (proj1 (create_stocks_payload
                     [Watch (VStr "A") (VStr ">10") "100.00";
                      Watch (VStr "B") (VStr "1") "50.00"]
                     ["A"; "B"; "C"]) H)
    as (out & qs & Hsel & _ & Hlen & _ & _ & _ & _ & _ & Hids & _).
  exists out. split; [exact Hsel|]. split; [exact Hlen | exact Hids].
Defined.

(** C1 as stated fails: a row whose code is a known identifier and whose
    quantity cell is empty makes both transforms raise, so no payload is
    returned. *)
Lemma create_stocks_payload_counterexample :
  Seller.create_stocks [Watch (VStr "A") (VStr "") "100.00"] ["A"]
  = Raise ValueError
  /\ (forall wh date,
         Market.create_stocks [Watch (VStr "A") (VStr "") "100.00"] ["A"]
                              wh date
         = Raise ValueError)
  /\ ~ (exists out ids',
           Seller.create_stocks [Watch (VStr "A") (VStr "") "100.00"] ["A"]
           = Ok (out, ids')
           /\ List.length out = List.length ["A"]).
Proof.
  split; [reflexivity|]. split; [reflexivity|].
  intros (out & ids' & H & _). discriminate H.
Qed.

Lemma NoDup_count_le (l : list string) (x : string) :
  NoDup l -> (count_occ string_dec l x <= 1)%nat.
Proof.
  intros H. now apply (proj1 (NoDup_count_occ string_dec l)).
Qed.

(** C7 (as amended).  After either [create_stocks] returns, the
    identifier list passed in holds the leftover identifiers, those that no
    inventory row used up, in their original order: each identifier as
    often as the list held it minus the number of rows with that code.
    They are the identifiers of the zero-stock items that end the payload.
    The list is empty only when every identifier was matched by a row. *)
Theorem create_stocks_leaves_unmatched (wr : list watch) (ids : list string)
    (wh date : string) (out : list Seller.Stock.t) (mout : list Market.Sku.t)
    (ids' mids' : list string) :
  Seller.create_stocks wr ids = Ok (out, ids') ->
  Market.create_stocks wr ids wh date = Ok (mout, mids') ->
  mids' = ids'
  /\ ids' = unmatched wr ids
  /\ subseq ids' ids
  /\ (forall x,
         count_occ string_dec ids' x
         = (count_occ string_dec ids x
            - count_occ string_dec (map code wr) x)%nat)
  /\ (NoDup ids ->
      forall x, In x ids' <-> In x ids /\ ~ In x (map code wr))
  /\ skipn (List.length out - List.length ids') out = zero_items ids'
  /\ (ids' = [] <-> List.length (matched wr ids) = List.length ids).
Proof.
  intros Hsel Hmar.
  rewrite market_create_stocks, Hsel in Hmar. cbn in Hmar.
  inversion Hmar; subst mout mids'; clear Hmar.
  rewrite seller_create_stocks in Hsel.
  destruct (traverse stock_of (matched wr ids)) as [qs|e] eqn:Hqs;
    [|discriminate].
  cbn in Hsel. inversion Hsel; subst out ids'; clear Hsel.
  pose proof (traverse_length _ _ _ Hqs) as Hlen.
  pose proof (Permutation_length (matched_unmatched_perm wr ids)) as Hperm.
  rewrite length_app, length_map in Hperm.
  split; [reflexivity|]. split; [reflexivity|].
  split; [apply unmatched_subseq|]. split; [apply unmatched_count|].
  split; [|split].
  - intros Hnd x. pose proof (NoDup_count_le ids x Hnd) as Hle.
    pose proof (unmatched_count wr ids x) as Hcnt.
    pose proof (count_occ_In string_dec (unmatched wr ids) x) as Hleft.
    pose proof (count_occ_In string_dec ids x) as Hids.
    pose proof (count_occ_not_In string_dec (map code wr) x) as Hcode.
    split.
    + intros Hin. apply Hleft in Hin.
      split; [apply Hids; lia | apply Hcode; lia].
    + intros [Hin Hnot]. apply Hleft. apply Hids in Hin.
      apply Hcode in Hnot. lia.
  - rewrite length_app. unfold zero_items at 1. rewrite length_map.
    replace (_ + _ - _)%nat
      with (List.length (stock_items (matched wr ids) qs)) by lia.
    rewrite skipn_app, Nat.sub_diag, skipn_all. reflexivity.
  - split.
    + intros Hnil. rewrite Hnil in Hperm. cbn in Hperm. lia.
    + intros Hall. destruct (unmatched wr ids); [reflexivity|].
      cbn in Hperm. lia.
Qed.

Lemma create_stocks_leaves_unmatched_witness :
  Seller.create_stocks
    [Watch (VStr "A") (VStr ">10") "100.00";
     Watch (VStr "B") (VStr "1") "50.00"] ["A"; "B"; "C"]
  = Ok ([Seller.Stock.Make "A" 100; Seller.Stock.Make "B" 0;
         Seller.Stock.Make "C" 0], ["C"])
  /\ subseq ["C"] ["A"; "B"; "C"]
  /\ (["C"] = [] <-> 2%nat = 3%nat).
Proof.
  split; [reflexivity|].
  pose proof (create_stocks_leaves_unmatched
                [Watch (VStr "A") (VStr ">10") "100.00";
                 Watch (VStr "B") (VStr "1") "50.00"] ["A"; "B"; "C"]
                "w" "d" _ _ _ _ eq_refl eq_refl)
    as (_ & _ & Hsub & _ & _ & _ & Hnil).
  split; [exact Hsub | exact Hnil].
Defined.

(** C7 as stated fails: on the identifiers A, B, C and rows for A and B,
    the list still holds C after the call. *)
Lemma create_stocks_empties_counterexample :
  exists out,
    Seller.create_stocks
      [Watch (VStr "A") (VStr ">10") "100.00";
       Watch (VStr "B") (VStr "1") "50.00"] ["A"; "B"; "C"]
    = Ok (out, ["C"])
    /\ (forall wh date,
           Market.create_stocks
             [Watch (VStr "A") (VStr ">10") "100.00";
              Watch (VStr "B") (VStr "1") "50.00"] ["A"; "B"; "C"] wh date
           = Ok (map (to_sku wh date) out, ["C"]))
    /\ ["C"] <> @nil string.
Proof.
  eexists. split; [reflexivity|]. split; [reflexivity | discriminate].
Qed.

Lemma seller_stocks_loop_app (pre rest : list watch) :
  forall st ids,
    Seller.create_stocks_loop (pre ++ rest) st ids
    = ('(st1, ids1) <- Seller.create_stocks_loop pre st ids ;;
       Seller.create_stocks_loop rest st1 ids1).
Proof.
  induction pre as [|w pre IH]; intros st ids; cbn; [reflexivity|].
  destruct (contains (str (Kod w)) ids); [|apply IH].
  destruct (stock_of w); cbn; [|reflexivity].
  destruct (remove (str (Kod w)) ids); cbn; [apply IH | reflexivity].
Qed.

Lemma stock_of_rule (w : watch) :
  (str (Kolichestvo w) = ">10" -> stock_of w = Ok 100)
  /\ (str (Kolichestvo w) = "1" -> stock_of w = Ok 0)
  /\ (str (Kolichestvo w) <> ">10" -> str (Kolichestvo w) <> "1" ->
      stock_of w = int (Kolichestvo w)).
Proof.
  unfold stock_of.
  destruct (String.eqb_spec (str (Kolichestvo w)) ">10") as [E1|N1].
  - repeat split; intros; congruence.
  - destruct (String.eqb_spec (str (Kolichestvo w)) "1") as [E2|N2];
      repeat split; intros; congruence.
Qed.

(** C2.  Take a row [w] that finds its code in the identifier list as the
    rows before it, [pre], left it ([ids1]).  Its quantity follows the rule
    (">10" gives 100, "1" gives 0, anything else is converted by [int]);
    the loop appends the item with that quantity and goes on to the later
    rows [post] with the first occurrence of the code taken out of the
    list.  In the returned payload the item stands right after the items
    of [pre].  Both marketplaces. *)
Theorem create_stocks_matched_row (pre post : list watch) (w : watch)
    (ids : list string) (st1 : list Seller.Stock.t) (ids1 : list string)
    (wh date : string) :
  Seller.create_stocks_loop pre [] ids = Ok (st1, ids1) ->
  In (code w) ids1 ->
  ((str (Kolichestvo w) = ">10" -> stock_of w = Ok 100)
   /\ (str (Kolichestvo w) = "1" -> stock_of w = Ok 0)
   /\ (str (Kolichestvo w) <> ">10" -> str (Kolichestvo w) <> "1" ->
       stock_of w = int (Kolichestvo w)))
  /\ (exists a b,
         ids1 = a ++ code w :: b
         /\ ~ In (code w) a
         /\ Seller.create_stocks_loop (pre ++ w :: post) [] ids
            = (q <- stock_of w ;;
               Seller.create_stocks_loop post
                 (st1 ++ [Seller.Stock.Make (code w) q]) (a ++ b))
         /\ Market.create_stocks_loop (pre ++ w :: post) wh date [] ids
            = (q <- stock_of w ;;
               Market.create_stocks_loop post wh date
                 (map (to_sku wh date) st1
                  ++ [Market.Sku.Make (code w) wh
                        [Market.Item.Make q "FIT" date]])
                 (a ++ b)))
  /\ (forall out ids',
         Seller.create_stocks (pre ++ w :: post) ids = Ok (out, ids') ->
         exists q,
           stock_of w = Ok q
           /\ nth_error out (List.length st1)
              = Some (Seller.Stock.Make (code w) q))
  /\ (forall mout ids',
         Market.create_stocks (pre ++ w :: post) ids wh date
         = Ok (mout, ids') ->
         exists q,
           stock_of w = Ok q
           /\ nth_error mout (List.length st1)
              = Some (Market.Sku.Make (code w) wh
                        [Market.Item.Make q "FIT" date])).
Proof.
  intros Hpre Hin.
  split; [apply stock_of_rule|].
  destruct (delete_split _ _ Hin) as (a & b & Hids1 & Ha & Hdel).
  assert (Hstep :
            Seller.create_stocks_loop (pre ++ w :: post) [] ids
            = (q <- stock_of w ;;
               Seller.create_stocks_loop post
                 (st1 ++ [Seller.Stock.Make (code w) q]) (a ++ b))).
  { rewrite seller_stocks_loop_app, Hpre. cbn. fold (code w).
    rewrite (proj2 (contains_In _ _) Hin).
    rewrite remove_delete by (now apply contains_In).
    rewrite Hdel. destruct (stock_of w); reflexivity. }
  assert (Hfinal :
            forall out ids',
              Seller.create_stocks (pre ++ w :: post) ids = Ok (out, ids') ->
              exists q,
                stock_of w = Ok q
                /\ nth_error out (List.length st1)
                   = Some (Seller.Stock.Make (code w) q)).
  { intros out ids'. unfold Seller.create_stocks. rewrite Hstep.
    destruct (stock_of w) as [q|e]; cbn; [|discriminate].
    rewrite seller_stocks_loop.
    destruct (traverse stock_of (matched post (a ++ b))) as [qs|e];
      cbn; [|discriminate].
    rewrite (fold_append (fun id => Seller.Stock.Make id 0)).
    intros H. inversion H; subst out ids'; clear H.
    exists q. split; [reflexivity|].
    rewrite <- !app_assoc. rewrite nth_error_app2 by lia.
    rewrite Nat.sub_diag. reflexivity. }
  split; [|split].
  - exists a, b. repeat split; try assumption.
    pose proof (market_stocks_loop wh date (pre ++ w :: post) [] ids) as Hm.
    cbn [map] in Hm. rewrite Hm, Hstep.
    destruct (stock_of w) as [q|e]; cbn; [|reflexivity].
    rewrite <- (market_stocks_loop wh date post), map_app. reflexivity.
  - exact Hfinal.
  - intros mout ids'. rewrite market_create_stocks.
    destruct (Seller.create_stocks (pre ++ w :: post) ids)
      as [[out ids2]|e] eqn:Hsel; cbn; [|discriminate].
    intros H. inversion H; subst mout ids'; clear H.
    destruct (Hfinal out ids2 eq_refl) as (q & Hq & Hnth).
    exists q. split; [exact Hq|].
    rewrite nth_error_map, Hnth. reflexivity.
Qed.

Lemma create_stocks_matched_row_witness :
  In "B" ["B"; "C"]
  /\ exists q,
      stock_of (Watch (VStr "B") (VStr "1") "50.00") = Ok q
      /\ nth_error [Seller.Stock.Make "A" 100; Seller.Stock.Make "B" 0;
                    Seller.Stock.Make "C" 0] 1
         = Some (Seller.Stock.Make "B" q).
Proof.
  split; [cbn; tauto|].
  apply (proj1 (proj2 (proj2
           (create_stocks_matched_row
              [Watch (VStr "A") (VStr ">10") "100.00"] []
              (Watch (VStr "B") (VStr "1") "50.00")
              ["A"; "B"; "C"] [Seller.Stock.Make "A" 100] ["B"; "C"]
              "w" "d" eq_refl (or_introl eq_refl))))
         _ ["C"]).
  reflexivity.
Defined.

(** ** Converting digit strings *)

Lemma digit_not_space (c : ascii) : is_digit c = true -> is_space c = false.
Proof.
  unfold is_digit, is_space. cbv zeta.
  destruct (N.leb_spec 48 (N_of_ascii c)); [|discriminate].
  destruct (N.leb_spec (N_of_ascii c) 57); [|discriminate].
  intros _.
  destruct (N.eqb_spec (N_of_ascii c) 32); [lia|].
  destruct (N.leb_spec (N_of_ascii c) 13); [lia|].
  now rewrite !andb_false_r.
Qed.

Lemma lstrip_digit (c : ascii) (l : list ascii) :
  is_digit c = true -> lstrip (c :: l) = c :: l.
Proof.
  intros H. cbn. now rewrite (digit_not_space c H).
Qed.

Lemma strip_digits (l : list ascii) :
  Forall (fun c => is_digit c = true) l -> strip l = l.
Proof.
  intros H. unfold strip.
  assert (Hl : forall k, Forall (fun c => is_digit c = true) k ->
                         lstrip k = k).
  { intros [|c k] Hk; [reflexivity|].
    inversion Hk; subst. now apply lstrip_digit. }
  rewrite (Hl l H), Hl by (now apply Forall_rev).
  apply rev_involutive.
Qed.

Lemma int_digits_total (l : list ascii) :
  Forall (fun c => is_digit c = true) l ->
  forall acc b, l <> [] \/ b = true ->
  exists z, int_digits acc b l = Some z.
Proof.
  induction 1 as [|c l Hc Hl IH]; intros acc b Hne.
  - destruct Hne as [Hne| ->]; [congruence|]. cbn. eauto.
  - cbn. rewrite Hc. apply IH. now right.
Qed.

Lemma int_of_digit_list (c : ascii) (l : list ascii) (s : string) :
  is_digit c = true ->
  strip (list_ascii_of_string s) = c :: l ->
  int_of_string s
  = match int_digits 0 false (c :: l) with
    | Some z => Ok z
    | None => Raise ValueError
    end.
Proof.
  intros Hc Hs. unfold int_of_string. rewrite Hs.
  destruct c as [[] [] [] [] [] [] [] []]; try discriminate Hc; reflexivity.
Qed.

(** [int] of a non-empty string of decimal digits succeeds; [int] of the
    empty string is a [ValueError]. *)
Lemma int_of_string_digits (s : string) :
  Forall (fun c => is_digit c = true) (list_ascii_of_string s) ->
  s <> "" ->
  exists z, int_of_string s = Ok z.
Proof.
  intros Hd Hne.
  pose proof (strip_digits _ Hd) as Hs.
  destruct (list_ascii_of_string s) as [|c l] eqn:El.
  - destruct s; [congruence | discriminate El].
  - inversion Hd; subst.
    rewrite (int_of_digit_list c l s); [|assumption|now rewrite El].
    destruct (int_digits_total (c :: l) Hd 0 false) as [z ->];
      [left; discriminate|].
    eauto.
Qed.

Lemma int_of_string_error (s : string) :
  forall e, int_of_string s = Raise e -> e = ValueError.
Proof.
  intros e. unfold int_of_string.
  destruct (strip (list_ascii_of_string s)) as [|c l].
  - cbn. congruence.
  - destruct c as [[] [] [] [] [] [] [] []];
      match goal with
      | |- context [int_digits ?a ?b ?k] => destruct (int_digits a b k)
      end; congruence.
Qed.

Lemma price_conversion_digits (price : string) :
  Forall (fun c => is_digit c = true)
         (list_ascii_of_string (Seller.price_conversion price)).
Proof.
  unfold Seller.price_conversion.
  rewrite re_sub_delete, list_ascii_of_string_of_list_ascii.
  apply Forall_forall. intros c Hc. now apply filter_In in Hc.
Qed.

Lemma price_value_ok (w : watch) :
  is_ok (price_value w) = true <-> Seller.price_conversion (Tsena w) <> "".
Proof.
  unfold price_value. split.
  - intros H E. rewrite E in H. discriminate H.
  - intros H.
    destruct (int_of_string_digits _ (price_conversion_digits (Tsena w)) H)
      as [z ->].
    reflexivity.
Qed.

(** ** The price transforms *)

Lemma seller_prices_loop (ids : list string) (wr : list watch) :
  forall pr,
    Seller.create_prices_loop wr pr ids
    = (pr ++ map seller_price (filter (known ids) wr), ids).
Proof.
  induction wr as [|w wr IH]; intros pr; cbn.
  - now rewrite app_nil_r.
  - unfold known at 1. fold (code w).
    destruct (contains (code w) ids); [|apply IH].
    rewrite IH. cbn. now rewrite <- app_assoc.
Qed.

Lemma market_prices_loop (ids : list string) (wr : list watch) :
  forall pr,
    Market.create_prices_loop wr pr ids
    = (vs <- traverse price_value (filter (known ids) wr) ;;
       Ok (pr ++ market_prices (filter (known ids) wr) vs, ids)).
Proof.
  induction wr as [|w wr IH]; intros pr.
  - unfold market_prices. cbn. now rewrite app_nil_r.
  - cbn [Market.create_prices_loop filter].
    change (contains (str (Kod w)) ids) with (known ids w).
    change (int_of_string (Seller.price_conversion (Tsena w)))
      with (price_value w).
    destruct (known ids w); [|apply IH].
    cbn [traverse].
    destruct (price_value w) as [v|e]; cbn [bind]; [|reflexivity].
    rewrite IH.
    destruct (traverse price_value (filter (known ids) wr));
      cbn [bind]; [|reflexivity].
    unfold market_prices. cbn [combine map fst snd].
    now rewrite <- app_assoc.
Qed.

Lemma traverse_error {A B : Type} (f : A -> result B) (E : exn)
    (l : list A) :
  (forall a e, f a = Raise e -> e = E) ->
  forall e, traverse f l = Raise e -> e = E.
Proof.
  intros Hf. induction l as [|a l IH]; cbn; intros e H; [discriminate|].
  destruct (f a) eqn:Ea; cbn in H.
  - destruct (traverse f l); cbn in H; [discriminate|].
    apply IH. congruence.
  - apply (Hf a). congruence.
Qed.

Lemma market_prices_ids (ws : list watch) (vs : list Z) :
  List.length vs = List.length ws ->
  map Market.Price.id (market_prices ws vs) = map code ws.
Proof.
  unfold market_prices. revert vs.
  induction ws as [|w ws IH]; intros [|v vs] H; cbn in *;
    try discriminate; try reflexivity.
  f_equal. apply IH. lia.
Qed.

Lemma filter_subseq {A : Type} (p : A -> bool) (l : list A) :
  subseq (filter p l) l.
Proof.
  induction l as [|a l IH]; cbn; [constructor|].
  destruct (p a); now constructor.
Qed.

Lemma known_In (ids : list string) (wr : list watch) (w : watch) :
  In w (filter (known ids) wr) <-> In w wr /\ In (code w) ids.
Proof.
  rewrite filter_In. unfold known. now rewrite contains_In.
Qed.

(** C5 (as amended).  The Seller [create_prices] returns one item for
    each inventory row whose code is in the identifier list, in inventory
    order, and nothing else.  The Market [create_prices] does the same
    when each of those rows has a digit before the first ['.'] of its
    price, and raises [ValueError] otherwise.  Rows with other codes and
    identifiers without a row give no item; the identifier list is left
    as it was. *)
Theorem create_prices_items (wr : list watch) (ids : list string) :
  Seller.create_prices wr ids
  = (map seller_price (filter (known ids) wr), ids)
  /\ map Seller.Price.offer_id (map seller_price (filter (known ids) wr))
     = map code (filter (known ids) wr)
  /\ (Forall (fun w => Seller.price_conversion (Tsena w) <> "")
             (filter (known ids) wr) ->
      exists vs,
        traverse price_value (filter (known ids) wr) = Ok vs
        /\ Market.create_prices wr ids
           = Ok (market_prices (filter (known ids) wr) vs, ids)
        /\ List.length (market_prices (filter (known ids) wr) vs)
           = List.length (filter (known ids) wr)
        /\ map Market.Price.id (market_prices (filter (known ids) wr) vs)
           = map code (filter (known ids) wr))
  /\ (~ Forall (fun w => Seller.price_conversion (Tsena w) <> "")
               (filter (known ids) wr) ->
      Market.create_prices wr ids = Raise ValueError)
  /\ (forall w, In w (filter (known ids) wr) <-> In w wr /\ In (code w) ids)
  /\ subseq (filter (known ids) wr) wr.
Proof.
  split; [apply (seller_prices_loop ids wr [])|].
  split; [rewrite map_map; reflexivity|].
  assert (Hok : Forall (fun w => Seller.price_conversion (Tsena w) <> "")
                       (filter (known ids) wr)
                <-> is_ok (traverse price_value (filter (known ids) wr))
                    = true).
  { rewrite <- traverse_ok.
    split; apply Forall_impl; intros w; apply price_value_ok. }
  unfold Market.create_prices. rewrite market_prices_loop.
  split; [|split; [|split]].
  - intros H. apply Hok in H.
    destruct (traverse price_value (filter (known ids) wr)) as [vs|e] eqn:Hvs;
      [|discriminate].
    pose proof (traverse_length _ _ _ Hvs) as Hlen.
    exists vs. cbn. repeat split.
    + rewrite <- (length_map Market.Price.id), market_prices_ids by exact Hlen.
      apply length_map.
    + now apply market_prices_ids.
  - intros H. rewrite Hok in H.
    destruct (traverse price_value (filter (known ids) wr)) as [vs|e] eqn:Hvs;
      [now elim H|].
    cbn. f_equal. revert Hvs. apply traverse_error.
    intros w e'. apply int_of_string_error.
  - apply known_In.
  - apply filter_subseq.
Qed.

Lemma create_prices_items_witness :
  Forall (fun w => Seller.price_conversion (Tsena w) <> "")
         (filter (known ["A"; "C"])
                 [Watch (VStr "A") (VInt 5) "100.00";
                  Watch (VStr "B") (VInt 7) "50.00"])
  /\ exists vs,
      Market.create_prices [Watch (VStr "A") (VInt 5) "100.00";
                            Watch (VStr "B") (VInt 7) "50.00"] ["A"; "C"]
      = Ok (market_prices [Watch (VStr "A") (VInt 5) "100.00"] vs,
            ["A"; "C"]).
Proof.
  assert (H : Forall (fun w => Seller.price_conversion (Tsena w) <> "")
                     (filter (known ["A"; "C"])
                             [Watch (VStr "A") (VInt 5) "100.00";
                              Watch (VStr "B") (VInt 7) "50.00"]))
    by (repeat constructor; discriminate).
  split; [exact H|].
  destruct (proj1 (proj2 (proj2
              (create_prices_items
                 [Watch (VStr "A") (VInt 5) "100.00";
                  Watch (VStr "B") (VInt 7) "50.00"] ["A"; "C"]))) H)
    as (vs & _ & Hm & _).
  exists vs. exact Hm.
Defined.

(** C5 as stated fails for the Market: a row whose code is a known
    identifier and whose price has no digit makes [create_prices] raise,
    so no item is emitted for it. *)
Lemma create_prices_items_counterexample :
  In (code (Watch (VStr "A") (VInt 5) "abc.00")) ["A"]
  /\ Market.create_prices [Watch (VStr "A") (VInt 5) "abc.00"] ["A"]
     = Raise ValueError
  /\ ~ (exists out ids',
           Market.create_prices [Watch (VStr "A") (VInt 5) "abc.00"] ["A"]
           = Ok (out, ids')).
Proof.
  split; [now left|]. split; [reflexivity|].
  intros (out & ids' & H). discriminate H.
Qed.

Lemma filter_none {A : Type} (p : A -> bool) (l : list A) :
  (forall a, In a l -> p a = false) -> filter p l = [].
Proof.
  induction l as [|a l IH]; cbn; intros H; [reflexivity|].
  rewrite (H a) by now left. apply IH. intros b Hb. apply H. now right.
Qed.

(** C10.  Take a row whose code is a known identifier and whose price has
    no digit before its first ['.'].  Its normalised price is empty: the
    Market [create_prices] raises [ValueError] (from [int] of the empty
    string), while the Seller [create_prices] returns, with an item for
    the row whose [price] is the empty string. *)
Theorem price_transforms_diverge (wr : list watch) (ids : list string)
    (w : watch) (pre post : string) :
  In w wr ->
  In (code w) ids ->
  Tsena w = (pre ++ post)%string ->
  (forall c, In c (list_ascii_of_string pre) -> c <> "."%char) ->
  (post = "" \/ exists rest, post = String "." rest) ->
  (forall c, In c (list_ascii_of_string pre) -> is_digit c = false) ->
  Seller.price_conversion (Tsena w) = ""
  /\ int_of_string (Seller.price_conversion (Tsena w)) = Raise ValueError
  /\ Market.create_prices wr ids = Raise ValueError
  /\ exists out,
      Seller.create_prices wr ids = (out, ids)
      /\ In (Seller.Price.Make "UNKNOWN" "RUB" (code w) "0" "") out.
Proof.
  intros Hw Hid Hprice Hdot Hpost Hnodigit.
  assert (Hempty : Seller.price_conversion (Tsena w) = "").
  { rewrite (price_conversion_prefix _ pre post Hprice Hdot Hpost).
    now rewrite filter_none. }
  split; [exact Hempty|]. split; [now rewrite Hempty|].
  assert (Hkept : In w (filter (known ids) wr)) by (now apply known_In).
  split.
  - unfold Market.create_prices. rewrite market_prices_loop.
    destruct (traverse price_value (filter (known ids) wr)) as [vs|e] eqn:Hvs.
    + exfalso.
      assert (Hall : is_ok (traverse price_value (filter (known ids) wr))
                     = true) by (now rewrite Hvs).
      apply traverse_ok in Hall.
      rewrite Forall_forall in Hall. specialize (Hall w Hkept).
      apply price_value_ok in Hall. contradiction.
    + cbn. f_equal. revert Hvs. apply traverse_error.
      intros a e'. apply int_of_string_error.
  - exists (map seller_price (filter (known ids) wr)).
    split; [apply (seller_prices_loop ids wr [])|].
    apply in_map_iff. exists w. split; [|exact Hkept].
    unfold seller_price. now rewrite Hempty.
Qed.

Lemma price_transforms_diverge_witness :
  Market.create_prices [Watch (VStr "A") (VInt 5) "abc.00"] ["A"]
  = Raise ValueError
  /\ exists out,
      Seller.create_prices [Watch (VStr "A") (VInt 5) "abc.00"] ["A"]
      = (out, ["A"])
      /\ In (Seller.Price.Make "UNKNOWN" "RUB" "A" "0" "") out.
Proof.
  apply (price_transforms_diverge
           [Watch (VStr "A") (VInt 5) "abc.00"] ["A"]
           (Watch (VStr "A") (VInt 5) "abc.00") "abc" ".00").
  - now left.
  - now left.
  - reflexivity.
  - intros c Hc. cbn in Hc.
    repeat (destruct Hc as [<-|Hc]; [discriminate|]). destruct Hc.
  - right. eexists. reflexivity.
  - intros c Hc. cbn in Hc.
    repeat (destruct Hc as [<-|Hc]; [reflexivity|]). destruct Hc.
Defined.

(** ** The identifier resolvers *)

Lemma bounded_search (P : nat -> bool) (n : nat) :
  (exists i, (0 < i <= n)%nat /\ P i = true)
  \/ (forall i, (0 < i <= n)%nat -> P i = false).
Proof.
  induction n as [|n [(i & Hi & HPi)|Hnone]].
  - right. intros i Hi. lia.
  - left. exists i. split; [lia | exact HPi].
  - destruct (P (S n)) eqn:E.
    + left. exists (S n). split; [lia | exact E].
    + right. intros i Hi.
      destruct (Nat.eq_dec i (S n)) as [->|Hne]; [exact E|].
      apply Hnone. lia.
Qed.

(** A signal that occurs occurs a first time. *)
Lemma first_true (P : nat -> bool) (n : nat) :
  (exists j, (0 < j <= n)%nat /\ P j = true) ->
  exists k, (0 < k <= n)%nat /\ P k = true
            /\ forall j, (0 < j < k)%nat -> P j = false.
Proof.
  induction n as [|n IH]; intros (j & Hj & HP); [lia|].
  destruct (bounded_search P n) as [Hsome|Hnone].
  - destruct (IH Hsome) as (k & Hk & HPk & Hmin).
    exists k. split; [lia|]. split; assumption.
  - assert (j = S n) as ->.
    { destruct (Nat.eq_dec j (S n)) as [E|Hne]; [exact E|].
      rewrite Hnone in HP by lia. discriminate HP. }
    exists (S n). split; [lia|]. split; [exact HP|].
    intros i Hi. apply Hnone. lia.
Qed.

Section SellerResolver.

Variable W : Type.
Variable get_product_list :
  string -> string -> string -> W -> result (Seller.Page.t * W).
Variables client_id seller_token : string.

Lemma seller_pages_length (n : nat) :
  forall c w ps w',
    seller_pages W get_product_list client_id seller_token n c w
    = Ok (ps, w') ->
    List.length ps = n.
Proof.
  induction n as [|n IH]; intros c w ps w' H; cbn in H.
  - now inversion H.
  - destruct (get_product_list c client_id seller_token w)
      as [[p w1]|e]; [|discriminate].
    cbn in H.
    destruct (seller_pages W get_product_list client_id seller_token n
                           (Seller.Page.last_id p) w1)
      as [[ps1 w2]|e] eqn:Hrest; [|discriminate].
    cbn in H. inversion H; subst. cbn. f_equal. eapply IH. eassumption.
Qed.

Lemma seller_pages_prefix (n : nat) :
  forall c w ps w' k,
    seller_pages W get_product_list client_id seller_token n c w
    = Ok (ps, w') ->
    (k <= n)%nat ->
    exists wk,
      seller_pages W get_product_list client_id seller_token k c w
      = Ok (firstn k ps, wk).
Proof.
  induction n as [|n IH]; intros c w ps w' k H Hk; cbn in H.
  - inversion H; subst. replace k with O by lia. cbn. eauto.
  - destruct k as [|k]; [cbn; eauto|].
    cbn. destruct (get_product_list c client_id seller_token w)
      as [[p w1]|e]; [|discriminate].
    cbn in *.
    destruct (seller_pages W get_product_list client_id seller_token n
                           (Seller.Page.last_id p) w1)
      as [[ps1 w2]|e] eqn:Hrest; [|discriminate].
    cbn in H. inversion H; subst. cbn.
    assert (Hk' : (k <= n)%nat) by lia.
    destruct (IH _ _ _ _ k Hrest Hk') as [wk ->].
    cbn. eauto.
Qed.

Lemma seller_reached_one (b : nat) (p : Seller.Page.t) :
  seller_reached b [p]
  = (Seller.Page.total p
     =? Z.of_nat (b + List.length (Seller.Page.items p))).
Proof.
  unfold seller_reached, seller_items. cbn. now rewrite app_nil_r.
Qed.

Lemma seller_reached_cons (b : nat) (p : Seller.Page.t)
    (ps : list Seller.Page.t) :
  ps <> [] ->
  seller_reached b (p :: ps)
  = seller_reached (b + List.length (Seller.Page.items p)) ps.
Proof.
  intros Hne. unfold seller_reached, seller_items. cbn [rev map List.concat].
  destruct (rev ps) as [|q r] eqn:Hrev.
  - apply (f_equal (@rev _)) in Hrev. rewrite rev_involutive in Hrev.
    contradiction.
  - cbn [app]. rewrite length_app, Nat.add_assoc. reflexivity.
Qed.

(** The loop started with cursor [c] and [acc] already accumulated stops
    on the last of the pages [ps] when that page is the first to give the
    signal: it then needs exactly [length ps] requests. *)
Lemma seller_loop_stops (k : nat) :
  forall c acc w ps w',
    seller_pages W get_product_list client_id seller_token (S k) c w
    = Ok (ps, w') ->
    seller_reached (List.length acc) ps = true ->
    (forall j, (0 < j < S k)%nat ->
               seller_reached (List.length acc) (firstn j ps) = false) ->
    (forall fuel, (k < fuel)%nat ->
        Seller.get_offer_ids_loop W get_product_list client_id seller_token
          fuel c acc w
        = Some (Ok (acc ++ seller_items ps, w')))
    /\ (forall fuel, (fuel <= k)%nat ->
          Seller.get_offer_ids_loop W get_product_list client_id seller_token
            fuel c acc w
          = None).
Proof.
  induction k as [|k IH]; intros c acc w ps w' Hpages Hlast Hfirst.
  - cbn in Hpages.
    destruct (get_product_list c client_id seller_token w)
      as [[p w1]|e] eqn:Hget; [|discriminate].
    cbn in Hpages. inversion Hpages; subst ps w'; clear Hpages.
    rewrite seller_reached_one in Hlast.
    split; intros fuel Hfuel.
    + destruct fuel as [|fuel]; [lia|]. cbn. rewrite Hget.
      rewrite length_app, Hlast. unfold seller_items. cbn.
      now rewrite app_nil_r.
    + replace fuel with O by lia. reflexivity.
  - pose proof (seller_pages_length _ _ _ _ _ Hpages) as Hlen.
    change (seller_pages W get_product_list client_id seller_token
                         (S (S k)) c w)
      with ('(p, w1) <- get_product_list c client_id seller_token w ;;
            '(ps1, w2) <-
               seller_pages W get_product_list client_id seller_token
                            (S k) (Seller.Page.last_id p) w1 ;;
            Ok (p :: ps1, w2)) in Hpages.
    destruct (get_product_list c client_id seller_token w)
      as [[p w1]|e] eqn:Hget; [|discriminate].
    cbn [bind] in Hpages.
    destruct (seller_pages W get_product_list client_id seller_token
                           (S k) (Seller.Page.last_id p) w1)
      as [[ps1 w2]|e] eqn:Hrest; [|discriminate].
    cbn [bind] in Hpages. inversion Hpages; subst ps w'; clear Hpages.
    pose proof (seller_pages_length _ _ _ _ _ Hrest) as Hlen1.
    assert (Hne : ps1 <> []) by (intros ->; discriminate Hlen1).
    pose proof (Hfirst 1%nat ltac:(lia)) as Hone.
    cbn [firstn] in Hone. rewrite seller_reached_one in Hone.
    rewrite seller_reached_cons in Hlast by exact Hne.
    rewrite <- length_app in Hlast, Hone.
    destruct (IH (Seller.Page.last_id p) (acc ++ Seller.Page.items p)
                 w1 ps1 w2 Hrest Hlast) as [Hstop Hshort].
    { intros j Hj. specialize (Hfirst (S j) ltac:(lia)).
      cbn [firstn] in Hfirst.
      rewrite seller_reached_cons in Hfirst.
      - now rewrite length_app.
      - destruct j as [|j]; [lia|].
        destruct ps1; [contradiction | discriminate]. }
    split; intros fuel Hfuel.
    + destruct fuel as [|fuel]; [lia|]. cbn. rewrite Hget, Hone.
      rewrite Hstop by lia. unfold seller_items. cbn.
      now rewrite app_assoc.
    + destruct fuel as [|fuel]; [reflexivity|]. cbn. rewrite Hget, Hone.
      apply Hshort. lia.
Qed.

End SellerResolver.

Section MarketResolver.

Variable W : Type.
Variable get_product_list :
  string -> string -> string -> W -> result (Market.Page.t * W).
Variables campaign_id market_token : string.

Lemma market_pages_length (n : nat) :
  forall c w ps w',
    market_pages W get_product_list campaign_id market_token n c w
    = Ok (ps, w') ->
    List.length ps = n.
Proof.
  induction n as [|n IH]; intros c w ps w' H; cbn in H.
  - now inversion H.
  - destruct (get_product_list c campaign_id market_token w)
      as [[p w1]|e]; [|discriminate].
    cbn in H.
    destruct (market_pages W get_product_list campaign_id market_token n
                (Market.token
                   (Market.Paging.nextPageToken (Market.Page.paging p))) w1)
      as [[ps1 w2]|e] eqn:Hrest; [|discriminate].
    cbn in H. inversion H; subst. cbn. f_equal. eapply IH. eassumption.
Qed.

Lemma market_pages_prefix (n : nat) :
  forall c w ps w' k,
    market_pages W get_product_list campaign_id market_token n c w
    = Ok (ps, w') ->
    (k <= n)%nat ->
    exists wk,
      market_pages W get_product_list campaign_id market_token k c w
      = Ok (firstn k ps, wk).
Proof.
  induction n as [|n IH]; intros c w ps w' k H Hk; cbn in H.
  - inversion H; subst. replace k with O by lia. cbn. eauto.
  - destruct k as [|k]; [cbn; eauto|].
    cbn. destruct (get_product_list c campaign_id market_token w)
      as [[p w1]|e]; [|discriminate].
    cbn in *.
    destruct (market_pages W get_product_list campaign_id market_token n
                (Market.token
                   (Market.Paging.nextPageToken (Market.Page.paging p))) w1)
      as [[ps1 w2]|e] eqn:Hrest; [|discriminate].
    cbn in H. inversion H; subst. cbn.
    assert (Hk' : (k <= n)%nat) by lia.
    destruct (IH _ _ _ _ k Hrest Hk') as [wk ->].
    cbn. eauto.
Qed.

Lemma market_reached_cons (p : Market.Page.t) (ps : list Market.Page.t) :
  ps <> [] -> market_reached (p :: ps) = market_reached ps.
Proof.
  intros Hne. unfold market_reached. cbn [rev].
  destruct (rev ps) as [|q r] eqn:Hrev; [|reflexivity].
  apply (f_equal (@rev _)) in Hrev. rewrite rev_involutive in Hrev.
  contradiction.
Qed.

Lemma market_loop_stops (k : nat) :
  forall c acc w ps w',
    market_pages W get_product_list campaign_id market_token (S k) c w
    = Ok (ps, w') ->
    market_reached ps = true ->
    (forall j, (0 < j < S k)%nat -> market_reached (firstn j ps) = false) ->
    (forall fuel, (k < fuel)%nat ->
        Market.get_offer_ids_loop W get_product_list campaign_id market_token
          fuel c acc w
        = Some (Ok (acc ++ market_entries ps, w')))
    /\ (forall fuel, (fuel <= k)%nat ->
          Market.get_offer_ids_loop W get_product_list campaign_id market_token
            fuel c acc w
          = None).
Proof.
  induction k as [|k IH]; intros c acc w ps w' Hpages Hlast Hfirst.
  - cbn in Hpages.
    destruct (get_product_list c campaign_id market_token w)
      as [[p w1]|e] eqn:Hget; [|discriminate].
    cbn in Hpages. inversion Hpages; subst ps w'; clear Hpages.
    change (market_reached [p])
      with (Market.falsy
              (Market.Paging.nextPageToken (Market.Page.paging p)))
      in Hlast.
    split; intros fuel Hfuel.
    + destruct fuel as [|fuel]; [lia|]. cbn. rewrite Hget, Hlast.
      unfold market_entries. cbn. now rewrite app_nil_r.
    + replace fuel with O by lia. reflexivity.
  - change (market_pages W get_product_list campaign_id market_token
                         (S (S k)) c w)
      with ('(p, w1) <- get_product_list c campaign_id market_token w ;;
            '(ps1, w2) <-
               market_pages W get_product_list campaign_id market_token
                 (S k)
                 (Market.token
                    (Market.Paging.nextPageToken (Market.Page.paging p)))
                 w1 ;;
            Ok (p :: ps1, w2)) in Hpages.
    destruct (get_product_list c campaign_id market_token w)
      as [[p w1]|e] eqn:Hget; [|discriminate].
    cbn [bind] in Hpages.
    destruct (market_pages W get_product_list campaign_id market_token
                (S k)
                (Market.token
                   (Market.Paging.nextPageToken (Market.Page.paging p))) w1)
      as [[ps1 w2]|e] eqn:Hrest; [|discriminate].
    cbn [bind] in Hpages. inversion Hpages; subst ps w'; clear Hpages.
    pose proof (market_pages_length _ _ _ _ _ Hrest) as Hlen1.
    assert (Hne : ps1 <> []) by (intros ->; discriminate Hlen1).
    pose proof (Hfirst 1%nat ltac:(lia)) as Hone.
    change (market_reached (firstn 1 (p :: ps1)))
      with (Market.falsy
              (Market.Paging.nextPageToken (Market.Page.paging p)))
      in Hone.
    rewrite market_reached_cons in Hlast by exact Hne.
    destruct (IH (Market.token
                    (Market.Paging.nextPageToken (Market.Page.paging p)))
                 (acc ++ Market.Page.offerMappingEntries p)
                 w1 ps1 w2 Hrest Hlast) as [Hstop Hshort].
    { intros j Hj. specialize (Hfirst (S j) ltac:(lia)).
      cbn [firstn] in Hfirst.
      rewrite market_reached_cons in Hfirst; [exact Hfirst|].
      destruct j as [|j]; [lia|].
      destruct ps1; [contradiction | discriminate]. }
    split; intros fuel Hfuel.
    + destruct fuel as [|fuel]; [lia|]. cbn. rewrite Hget, Hone.
      rewrite Hstop by lia. unfold market_entries. cbn.
      now rewrite app_assoc.
    + destruct fuel as [|fuel]; [reflexivity|]. cbn. rewrite Hget, Hone.
      apply Hshort. lia.
Qed.

End MarketResolver.

(** C6.  Let the marketplace serve pages [ps] to requests that each carry
    the cursor of the page before, and let the marketplace's signal occur
    on some page: for the Seller the accumulated item count equals the
    page's [total], for the Market the page has no or an empty next-page
    token.  Then [get_offer_ids] stops on the first such page, page [k]:
    it makes exactly [k] requests and returns the identifiers of the items
    of pages 1 to [k] in page order.  On the page sequence
    [{items: [x, y], total: 3, last_id: "p1"}],
    [{items: [z], total: 3, last_id: ""}] it returns x, y, z after two
    requests. *)
Theorem get_offer_ids_terminates :
  (forall (W : Type) get_product_list client_id seller_token (w : W)
          (n : nat) ps wn,
      seller_pages W get_product_list client_id seller_token n "" w
      = Ok (ps, wn) ->
      (exists j, (0 < j <= n)%nat
                 /\ seller_reached 0 (firstn j ps) = true) ->
      exists k wk,
        (0 < k <= n)%nat
        /\ seller_reached 0 (firstn k ps) = true
        /\ seller_pages W get_product_list client_id seller_token k "" w
           = Ok (firstn k ps, wk)
        /\ (forall fuel, (k <= fuel)%nat ->
              Seller.get_offer_ids W get_product_list client_id seller_token
                                   fuel w
              = Some (Ok (map Seller.Product.offer_id
                              (seller_items (firstn k ps)), wk)))
        /\ (forall fuel, (fuel < k)%nat ->
              Seller.get_offer_ids W get_product_list client_id seller_token
                                   fuel w
              = None))
  /\ (forall (W : Type) get_product_list campaign_id market_token (w : W)
             (n : nat) ps wn,
         market_pages W get_product_list campaign_id market_token n "" w
         = Ok (ps, wn) ->
         (exists j, (0 < j <= n)%nat
                    /\ market_reached (firstn j ps) = true) ->
         exists k wk,
           (0 < k <= n)%nat
           /\ market_reached (firstn k ps) = true
           /\ market_pages W get_product_list campaign_id market_token k "" w
              = Ok (firstn k ps, wk)
           /\ (forall fuel, (k <= fuel)%nat ->
                 Market.get_offer_ids W get_product_list campaign_id
                                      market_token fuel w
                 = Some (Ok (map (fun e => Market.Offer.shopSku
                                             (Market.Entry.offer e))
                                 (market_entries (firstn k ps)), wk)))
           /\ (forall fuel, (fuel < k)%nat ->
                 Market.get_offer_ids W get_product_list campaign_id
                                      market_token fuel w
                 = None))
  /\ (forall client_id seller_token fuel,
         (2 <= fuel)%nat ->
         Seller.get_offer_ids nat two_pages client_id seller_token fuel 0%nat
         = Some (Ok (["x"; "y"; "z"], 2%nat)))
  /\ (forall client_id seller_token,
         Seller.get_offer_ids nat two_pages client_id seller_token 1 0%nat
         = None).
Proof.
  split; [|split; [|split]].
  - intros W gpl cid tok w n ps wn Hpages Hsome.
    destruct (first_true (fun j => seller_reached 0 (firstn j ps)) n Hsome)
      as (k & Hk & Hreach & Hmin).
    destruct (seller_pages_prefix W gpl cid tok n "" w ps wn k Hpages
                                  ltac:(lia)) as [wk Hpre].
    destruct k as [|k]; [lia|].
    destruct (seller_loop_stops W gpl cid tok k "" [] w (firstn (S k) ps) wk
                                Hpre Hreach) as [Hstop Hshort].
    { intros j Hj. rewrite firstn_firstn, Nat.min_l by lia.
      apply Hmin. lia. }
    exists (S k), wk. repeat split; try lia; try assumption.
    + intros fuel Hfuel. unfold Seller.get_offer_ids.
      rewrite Hstop by lia. cbn.
      now rewrite (fold_append Seller.Product.offer_id).
    + intros fuel Hfuel. unfold Seller.get_offer_ids.
      now rewrite Hshort by lia.
  - intros W gpl cid tok w n ps wn Hpages Hsome.
    destruct (first_true (fun j => market_reached (firstn j ps)) n Hsome)
      as (k & Hk & Hreach & Hmin).
    destruct (market_pages_prefix W gpl cid tok n "" w ps wn k Hpages
                                  ltac:(lia)) as [wk Hpre].
    destruct k as [|k]; [lia|].
    destruct (market_loop_stops W gpl cid tok k "" [] w (firstn (S k) ps) wk
                                Hpre Hreach) as [Hstop Hshort].
    { intros j Hj. rewrite firstn_firstn, Nat.min_l by lia.
      apply Hmin. lia. }
    exists (S k), wk. repeat split; try lia; try assumption.
    + intros fuel Hfuel. unfold Market.get_offer_ids.
      rewrite Hstop by lia. cbn.
      now rewrite (fold_append
                     (fun e => Market.Offer.shopSku (Market.Entry.offer e))).
    + intros fuel Hfuel. unfold Market.get_offer_ids.
      now rewrite Hshort by lia.
  - intros cid tok fuel Hfuel.
    destruct fuel as [|[|fuel]]; try lia. reflexivity.
  - reflexivity.
Qed.

Lemma get_offer_ids_terminates_witness :
  exists k wk,
    (0 < k <= 2)%nat
    /\ seller_pages nat two_pages "id" "key" k "" 0%nat
       = Ok ([Seller.Page.Make
                [Seller.Product.Make "x"; Seller.Product.Make "y"] 3 "p1";
              Seller.Page.Make [Seller.Product.Make "z"] 3 ""], wk)
    /\ Seller.get_offer_ids nat two_pages "id" "key" k 0%nat
       = Some (Ok (["x"; "y"; "z"], wk)).
Proof.
  destruct (proj1 get_offer_ids_terminates nat two_pages "id" "key" 0%nat
                  2%nat _ _ eq_refl)
    as (k & wk & Hk & Hreach & Hpages & Hstop & Hshort).
  - exists 2%nat. split; [lia | reflexivity].
  - assert (k = 2%nat) as ->.
    { destruct k as [|[|[|k]]]; try lia. discriminate Hreach. }
    exists 2%nat, wk. split; [lia|]. split; [exact Hpages|].
    apply Hstop. lia.
Defined.

(** ** The stock upload *)

Lemma filter_has_stock (stocks : list Market.Sku.t) :
  Forall (fun s => Market.Sku.items s <> []) stocks ->
  filter_list Market.has_stock stocks
  = Ok (filter (fun s => negb (first_count s =? 0)) stocks).
Proof.
  induction 1 as [|s stocks Hs Hall IH]; [reflexivity|].
  cbn [filter_list filter]. rewrite IH.
  unfold Market.has_stock, first_count.
  destruct (Market.Sku.items s) as [|item items]; [contradiction|].
  reflexivity.
Qed.

Lemma to_sku_items (wh date : string) (payload : list Seller.Stock.t) :
  Forall (fun s => Market.Sku.items s <> [])
         (map (to_sku wh date) payload).
Proof.
  apply Forall_forall. intros s Hs. apply in_map_iff in Hs.
  destruct Hs as [x [<- _]]. discriminate.
Qed.

Lemma filter_to_sku (wh date : string) (payload : list Seller.Stock.t) :
  filter (fun s => negb (first_count s =? 0)) (map (to_sku wh date) payload)
  = map (to_sku wh date) (filter in_stock payload).
Proof.
  induction payload as [|x payload IH]; [reflexivity|].
  cbn [map filter]. rewrite IH.
  change (first_count (to_sku wh date x)) with (Seller.Stock.stock x).
  unfold in_stock. destruct (negb (Seller.Stock.stock x =? 0)); reflexivity.
Qed.

(** C9 (as amended).  [upload_stocks] returns a pair exactly when the
    resolver returns identifiers, every inventory row matched to one of
    them carries a quantity the rule can convert, and every batch update
    succeeds.  The second component is then the whole stock payload for
    the resolved identifiers (the items of the matched rows in inventory
    order, then a zero-stock item per leftover identifier), the first
    component its items with a non-zero quantity in the same order.  When
    [create_stocks] raises, [upload_stocks] raises the same exception and
    returns no pair.  Both marketplaces; the Market pair is the Seller
    pair recast by [to_sku]. *)
Theorem upload_stocks_summary :
  (forall (W : Type) get_product_list update_stocks client_id seller_token
          fuel wr (w : W) not_empty stocks w2,
      Seller.upload_stocks W get_product_list update_stocks client_id
                           seller_token fuel wr w
      = Some (Ok ((not_empty, stocks), w2))
      <-> exists ids w1 qs chunks,
          Seller.get_offer_ids W get_product_list client_id seller_token
                               fuel w
          = Some (Ok (ids, w1))
          /\ traverse stock_of (matched wr ids) = Ok qs
          /\ stocks = stock_items (matched wr ids) qs
                       ++ zero_items (unmatched wr ids)
          /\ not_empty = filter in_stock stocks
          /\ Seller.divide stocks 100 = Ok chunks
          /\ Seller.push_stocks W update_stocks client_id seller_token
                                chunks w1 = Ok w2)
  /\ (forall (W : Type) get_product_list update_stocks campaign_id
             market_token fuel wr warehouse_id date (w : W)
             not_empty stocks w2,
         Market.upload_stocks W get_product_list update_stocks campaign_id
                              market_token fuel wr warehouse_id date w
         = Some (Ok ((not_empty, stocks), w2))
         <-> exists ids w1 qs chunks,
             Market.get_offer_ids W get_product_list campaign_id market_token
                                  fuel w
             = Some (Ok (ids, w1))
             /\ traverse stock_of (matched wr ids) = Ok qs
             /\ stocks
                = map (to_sku warehouse_id date)
                      (stock_items (matched wr ids) qs
                       ++ zero_items (unmatched wr ids))
             /\ not_empty
                = map (to_sku warehouse_id date)
                      (filter in_stock
                              (stock_items (matched wr ids) qs
                               ++ zero_items (unmatched wr ids)))
             /\ not_empty
                = filter (fun s => negb (first_count s =? 0)) stocks
             /\ Seller.divide stocks 2000 = Ok chunks
             /\ Market.push_stocks W update_stocks campaign_id market_token
                                   chunks w1 = Ok w2)
  /\ (forall (W : Type) get_product_list update_stocks client_id
             seller_token fuel wr (w w1 : W) ids e,
         Seller.get_offer_ids W get_product_list client_id seller_token
                              fuel w
         = Some (Ok (ids, w1)) ->
         Seller.create_stocks wr ids = Raise e ->
         Seller.upload_stocks W get_product_list update_stocks client_id
                              seller_token fuel wr w
         = Some (Raise e))
  /\ (forall (W : Type) get_product_list update_stocks campaign_id
             market_token fuel wr warehouse_id date (w w1 : W) ids e,
         Market.get_offer_ids W get_product_list campaign_id market_token
                              fuel w
         = Some (Ok (ids, w1)) ->
         Market.create_stocks wr ids warehouse_id date = Raise e ->
         Market.upload_stocks W get_product_list update_stocks campaign_id
                              market_token fuel wr warehouse_id date w
         = Some (Raise e))
  /\ (forall stocks : list Seller.Stock.t,
         subseq (filter in_stock stocks) stocks
         /\ forall s, In s (filter in_stock stocks)
                      <-> In s stocks /\ Seller.Stock.stock s <> 0)
  /\ (forall stocks : list Market.Sku.t,
         subseq (filter (fun s => negb (first_count s =? 0)) stocks) stocks
         /\ forall s,
             In s (filter (fun s => negb (first_count s =? 0)) stocks)
             <-> In s stocks /\ first_count s <> 0).
Proof.
  split; [|split; [|split; [|split; [|split]]]].
  - intros W gpl upd cid tok fuel wr w ne stocks w2.
    unfold Seller.upload_stocks. split.
    + destruct (Seller.get_offer_ids W gpl cid tok fuel w)
        as [[[ids w1]|e]|]; cbn [bind]; try discriminate.
      rewrite seller_create_stocks.
      destruct (traverse stock_of (matched wr ids)) as [qs|e] eqn:Hqs;
        cbn [bind]; try discriminate.
      destruct (Seller.divide
                  (stock_items (matched wr ids) qs
                   ++ zero_items (unmatched wr ids)) 100)
        as [chunks|e] eqn:Hdiv; cbn [bind]; try discriminate.
      destruct (Seller.push_stocks W upd cid tok chunks w1) as [w3|e] eqn:Hpush;
        cbn [bind]; try discriminate.
      intros H. inversion H; subst ne stocks w2; clear H.
      exists ids, w1, qs, chunks. repeat split; assumption.
    + intros (ids & w1 & qs & chunks & -> & Hqs & -> & -> & Hdiv & Hpush).
      cbn [bind]. rewrite seller_create_stocks, Hqs. cbn [bind].
      rewrite Hdiv. cbn [bind]. rewrite Hpush. reflexivity.
  - intros W gpl upd cid tok fuel wr wh date w ne stocks w2.
    unfold Market.upload_stocks. split.
    + destruct (Market.get_offer_ids W gpl cid tok fuel w)
        as [[[ids w1]|e]|]; cbn [bind]; try discriminate.
      rewrite market_create_stocks, seller_create_stocks.
      destruct (traverse stock_of (matched wr ids)) as [qs|e] eqn:Hqs;
        cbn [bind]; try discriminate.
      destruct (Seller.divide
                  (map (to_sku wh date)
                       (stock_items (matched wr ids) qs
                        ++ zero_items (unmatched wr ids))) 2000)
        as [chunks|e] eqn:Hdiv; cbn [bind]; try discriminate.
      destruct (Market.push_stocks W upd cid tok chunks w1) as [w3|e] eqn:Hpush;
        cbn [bind]; try discriminate.
      rewrite filter_has_stock by apply to_sku_items. cbn [bind].
      intros H. inversion H; subst ne stocks w2; clear H.
      exists ids, w1, qs, chunks.
      split; [reflexivity|]. split; [exact Hqs|]. split; [reflexivity|].
      split; [apply filter_to_sku|]. split; [reflexivity|].
      split; assumption.
    + intros (ids & w1 & qs & chunks & -> & Hqs & -> & _ & -> & Hdiv & Hpush).
      cbn [bind]. rewrite market_create_stocks, seller_create_stocks, Hqs.
      cbn [bind]. rewrite Hdiv. cbn [bind]. rewrite Hpush. cbn [bind].
      rewrite filter_has_stock by apply to_sku_items. reflexivity.
  - intros W gpl upd cid tok fuel wr w w1 ids e Hids Hraise.
    unfold Seller.upload_stocks. rewrite Hids. cbn [bind].
    now rewrite Hraise.
  - intros W gpl upd cid tok fuel wr wh date w w1 ids e Hids Hraise.
    unfold Market.upload_stocks. rewrite Hids. cbn [bind].
    now rewrite Hraise.
  - intros stocks. split; [apply filter_subseq|].
    intros s. rewrite filter_In. unfold in_stock.
    destruct (Z.eqb_spec (Seller.Stock.stock s) 0); cbn; intuition congruence.
  - intros stocks. split; [apply filter_subseq|].
    intros s. rewrite filter_In.
    destruct (Z.eqb_spec (first_count s) 0); cbn; intuition congruence.
Qed.

Lemma upload_stocks_summary_witness :
  Seller.upload_stocks nat two_pages accept_stocks "id" "key" 2
    [Watch (VStr "x") (VStr ">10") "100.00";
     Watch (VStr "y") (VStr "1") "50.00"] 0%nat
  = Some (Ok (([Seller.Stock.Make "x" 100],
               [Seller.Stock.Make "x" 100; Seller.Stock.Make "y" 0;
                Seller.Stock.Make "z" 0]),
              3%nat)).
Proof.
  apply (proj2 (proj1 upload_stocks_summary nat two_pages accept_stocks
                      "id" "key" 2%nat _ 0%nat _ _ _)).
  exists ["x"; "y"; "z"], 2%nat, [100; 0],
         [[Seller.Stock.Make "x" 100; Seller.Stock.Make "y" 0;
           Seller.Stock.Make "z" 0]].
  repeat split.
Defined.

(** C9 as stated fails: with every request and every update answered, an
    inventory row whose code is a resolved identifier and whose quantity
    cell is empty makes [upload_stocks] raise, so no pair is returned. *)
Lemma upload_stocks_summary_counterexample :
  Seller.upload_stocks nat two_pages accept_stocks "id" "key" 2
    [Watch (VStr "x") (VStr "") "100.00"] 0%nat
  = Some (Raise ValueError)
  /\ Market.upload_stocks nat last_page accept_skus "id" "key" 1
       [Watch (VStr "A") (VStr "") "100.00"] "wh" "2024-01-01T00:00:00Z"
       0%nat
     = Some (Raise ValueError)
  /\ ~ (exists pair w2,
           Seller.upload_stocks nat two_pages accept_stocks "id" "key" 2
             [Watch (VStr "x") (VStr "") "100.00"] 0%nat
           = Some (Ok (pair, w2))).
Proof.
  split; [reflexivity|]. split; [reflexivity|].
  intros (pair & w2 & H). discriminate H.
Qed.

(* ================================================================== *)
(** * Further properties of the transforms, the resolvers and the uploads *)

(** ** Rows and identifiers that do not meet *)

Lemma matched_none (wr : list watch) (ids : list string) :
  (forall w, In w wr -> ~ In (code w) ids) ->
  matched wr ids = [] /\ unmatched wr ids = ids.
Proof.
  induction wr as [|w wr IH]; intros H; [split; reflexivity|].
  assert (Hw : ~ In (code w) ids) by (apply H; now left).
  cbn. rewrite (proj2 (contains_false _ _) Hw), (delete_absent _ _ Hw).
  apply IH. intros w' Hw'. apply H. now right.
Qed.

(** Rows whose code is no known identifier are never looked at: whatever
    their quantity cells hold, both [create_stocks] return a zero-stock
    item for every identifier, in the list's order, and leave the list as
    it was.  This covers an empty inventory and an empty identifier
    list. *)
Theorem create_stocks_unknown_rows (wr : list watch) (ids : list string) :
  (forall w, In w wr -> ~ In (code w) ids) ->
  Seller.create_stocks wr ids = Ok (zero_items ids, ids)
  /\ forall wh date,
      Market.create_stocks wr ids wh date
      = Ok (map (to_sku wh date) (zero_items ids), ids).
Proof.
  intros H. destruct (matched_none wr ids H) as [Hm Hu].
  assert (Hsel : Seller.create_stocks wr ids = Ok (zero_items ids, ids))
    by (rewrite seller_create_stocks, Hm, Hu; reflexivity).
  split; [exact Hsel|].
  intros wh date. rewrite market_create_stocks, Hsel. reflexivity.
Qed.

Lemma create_stocks_unknown_rows_witness :
  (forall w, In w [Watch (VStr "Q") (VStr "n/a") "1.00"] ->
             ~ In (code w) ["A"; "B"])
  /\ Seller.create_stocks [Watch (VStr "Q") (VStr "n/a") "1.00"] ["A"; "B"]
     = Ok ([Seller.Stock.Make "A" 0; Seller.Stock.Make "B" 0], ["A"; "B"]).
Proof.
  assert (H : forall w, In w [Watch (VStr "Q") (VStr "n/a") "1.00"] ->
                        ~ In (code w) ["A"; "B"]).
  { intros w [<-|[]] [E|[E|[]]]; discriminate E. }
  split; [exact H|].
  exact (proj1 (create_stocks_unknown_rows
                  [Watch (VStr "Q") (VStr "n/a") "1.00"] ["A"; "B"] H)).
Defined.

(** ** The payload as a lookup *)

Lemma delete_NoDup (x : string) (l : list string) :
  NoDup l ->
  NoDup (delete x l) /\ forall y, In y (delete x l) <-> In y l /\ y <> x.
Proof.
  induction 1 as [|a l Ha Hl IH]; cbn.
  - split; [constructor | intros y; tauto].
  - destruct IH as [IHnd IHin].
    destruct (String.eqb_spec a x) as [->|Hne].
    + split; [exact Hl|]. intros y. split.
      * intros Hy. split; [now right|]. intros ->. contradiction.
      * intros [[E|Hy] Hyx]; [congruence | exact Hy].
    + split.
      * constructor; [|exact IHnd]. intros Hin. apply IHin in Hin. tauto.
      * intros y. cbn. rewrite IHin. split.
        -- intros [E|[Hy Hyx]]; [subst; tauto | tauto].
        -- intros [[E|Hy] Hyx]; [now left | right; tauto].
Qed.

Lemma first_row_cons (x : string) (w : watch) (wr : list watch) :
  first_row x (w :: wr)
  = if String.eqb (code w) x then Some w else first_row x wr.
Proof. reflexivity. Qed.

(** With a duplicate-free identifier list, the matched rows are the first
    rows of the known codes. *)
Lemma matched_first_row (wr : list watch) :
  forall ids w,
    NoDup ids ->
    (In w (matched wr ids)
     <-> In (code w) ids /\ first_row (code w) wr = Some w).
Proof.
  induction wr as [|w0 wr IH]; intros ids w Hnd.
  - cbn. split; [tauto | intros [_ H]; discriminate H].
  - rewrite first_row_cons. cbn [matched].
    destruct (delete_NoDup (code w0) ids Hnd) as [Hnd2 Hin2].
    destruct (contains (code w0) ids) eqn:Hc.
    + apply contains_In in Hc. cbn [In]. rewrite (IH _ w Hnd2), Hin2.
      destruct (String.eqb_spec (code w0) (code w)) as [E|Hne].
      * split.
        -- intros [->|[[_ Hx] _]]; [now split | congruence].
        -- intros [_ H]. left. congruence.
      * split.
        -- intros [->|[[Hi _] Hf]]; [congruence | now split].
        -- intros [Hi Hf]. right. split; [split|]; congruence.
    + apply contains_false in Hc. rewrite (IH _ w Hnd).
      destruct (String.eqb_spec (code w0) (code w)) as [E|Hne];
        [|reflexivity].
      rewrite <- E. split; [tauto|]. intros [Hi _]. contradiction.
Qed.

Lemma first_row_none (x : string) (wr : list watch) :
  first_row x wr = None <-> ~ In x (map code wr).
Proof.
  induction wr as [|w wr IH]; [cbn; tauto|].
  rewrite first_row_cons. cbn [map In].
  destruct (String.eqb_spec (code w) x) as [E|Hne].
  - split; [discriminate | intros H; elim H; now left].
  - rewrite IH. tauto.
Qed.

Lemma first_row_code (x : string) (wr : list watch) (w : watch) :
  first_row x wr = Some w -> code w = x.
Proof.
  intros H. apply find_some in H. destruct H as [_ H].
  now apply String.eqb_eq.
Qed.

Lemma unmatched_In (wr : list watch) (ids : list string) (x : string) :
  NoDup ids ->
  (In x (unmatched wr ids) <-> In x ids /\ ~ In x (map code wr)).
Proof.
  intros Hnd.
  pose proof (proj1 (NoDup_count_occ string_dec ids) Hnd x) as Hle.
  pose proof (unmatched_count wr ids x) as Hcnt.
  pose proof (count_occ_In string_dec (unmatched wr ids) x) as Hleft.
  pose proof (count_occ_In string_dec ids x) as Hids.
  pose proof (count_occ_not_In string_dec (map code wr) x) as Hcode.
  split.
  - intros Hin. apply Hleft in Hin.
    split; [apply Hids; lia | apply Hcode; lia].
  - intros [Hin Hnot]. apply Hleft. apply Hids in Hin.
    apply Hcode in Hnot. lia.
Qed.

Lemma traverse_combine {A B : Type} (f : A -> result B) (l : list A) :
  forall r,
    traverse f l = Ok r ->
    (forall a b, In (a, b) (combine l r) -> f a = Ok b)
    /\ (forall a, In a l -> exists b, In (a, b) (combine l r)).
Proof.
  induction l as [|a0 l IH]; cbn; intros r H.
  - inversion H; subst. split; [intros a b [] | intros a []].
  - destruct (f a0) as [b0|e] eqn:Ea; [|discriminate]. cbn in H.
    destruct (traverse f l) as [r0|e]; [|discriminate]. cbn in H.
    inversion H; subst r; clear H.
    destruct (IH r0 eq_refl) as [IH1 IH2]. cbn. split.
    + intros a b [E|Hin]; [inversion E; now subst | now apply IH1].
    + intros a [->|Hin]; [exists b0; now left|].
      destruct (IH2 a Hin) as [b Hb]. exists b. now right.
Qed.

(** When the identifier list has no duplicates and [create_stocks]
    returns, the payload is a lookup table over the identifiers: the item
    of an identifier carries the quantity of the first inventory row with
    that code (later rows with the same code are ignored), and 0 when no
    row has it. *)
Theorem create_stocks_first_row_wins (wr : list watch) (ids : list string)
    (out : list Seller.Stock.t) (ids' : list string) :
  NoDup ids ->
  Seller.create_stocks wr ids = Ok (out, ids') ->
  forall x q,
    In (Seller.Stock.Make x q) out
    <-> In x ids
        /\ match first_row x wr with
           | Some w => stock_of w = Ok q
           | None => q = 0
           end.
Proof.
  intros Hnd Hsel x q. rewrite seller_create_stocks in Hsel.
  destruct (traverse stock_of (matched wr ids)) as [qs|e] eqn:Hqs;
    [|discriminate].
  cbn in Hsel. inversion Hsel; subst out ids'; clear Hsel.
  destruct (traverse_combine _ _ _ Hqs) as [Hval Hhas].
  rewrite in_app_iff. unfold stock_items, zero_items.
  rewrite !in_map_iff. split.
  - intros [([w q'] & E & Hin)|(y & E & Hin)]; cbn in E.
    + inversion E; subst x q'; clear E.
      pose proof (Hval _ _ Hin) as Hq.
      apply in_combine_l in Hin.
      apply (matched_first_row wr ids w Hnd) in Hin.
      destruct Hin as [Hi Hf]. split; [exact Hi|]. now rewrite Hf.
    + inversion E; subst y q; clear E.
      apply (unmatched_In wr ids x Hnd) in Hin. destruct Hin as [Hi Hno].
      split; [exact Hi|].
      now rewrite (proj2 (first_row_none x wr) Hno).
  - intros [Hi Hrow]. destruct (first_row x wr) as [w|] eqn:Hf.
    + pose proof (first_row_code _ _ _ Hf) as Hcode. subst x.
      assert (Hw : In w (matched wr ids))
        by (apply (matched_first_row wr ids w Hnd); now split).
      destruct (Hhas w Hw) as [q' Hq'].
      pose proof (Hval _ _ Hq') as Hsame.
      assert (q' = q) by congruence. subst q'.
      left. exists (w, q). split; [reflexivity | exact Hq'].
    + subst q. right. exists x. split; [reflexivity|].
      apply (unmatched_In wr ids x Hnd). split; [exact Hi|].
      now apply first_row_none.
Qed.

Lemma create_stocks_first_row_wins_witness :
  NoDup ["A"; "B"]
  /\ (In (Seller.Stock.Make "A" 7)
         [Seller.Stock.Make "A" 7; Seller.Stock.Make "B" 0]
      <-> In "A" ["A"; "B"]
          /\ match first_row "A" [Watch (VStr "A") (VInt 7) "1.00";
                                  Watch (VStr "A") (VInt 9) "2.00"] with
             | Some w => stock_of w = Ok 7
             | None => 7 = 0
             end).
Proof.
  assert (Hnd : NoDup ["A"; "B"]).
  { repeat constructor; cbn; intuition discriminate. }
  split; [exact Hnd|].
  exact (create_stocks_first_row_wins
           [Watch (VStr "A") (VInt 7) "1.00";
            Watch (VStr "A") (VInt 9) "2.00"] ["A"; "B"]
           _ _ Hnd eq_refl "A" 7).
Defined.

(** ** The identifier list shared by the two transforms in [main] *)

Lemma bind_ok {A : Type} (m : result A) : (a <- m ;; Ok a) = m.
Proof. now destruct m. Qed.

Lemma known_leftover (wr : list watch) (ids : list string) :
  NoDup ids -> filter (known (unmatched wr ids)) wr = [].
Proof.
  intros Hnd. apply filter_none. intros w Hw. unfold known.
  apply contains_false. intros Hin.
  apply (unmatched_In wr ids (code w) Hnd) in Hin.
  destruct Hin as [_ Hno]. apply Hno. now apply in_map.
Qed.

(** The Seller [main] hands [create_prices] the identifier list that
    [create_stocks] has consumed.  When the resolved identifiers have no
    duplicates, no inventory row finds its code in what is left: the price
    payload is empty, and the run makes the stock updates and not a single
    price update. *)
Theorem seller_main_sends_no_price :
  forall (W : Type) get_product_list update_stocks update_price
         download_stock client_id seller_token fuel (w w1 w2 : W)
         (ids : list string) (wr : list watch),
    Seller.get_offer_ids W get_product_list client_id seller_token fuel w
    = Some (Ok (ids, w1)) ->
    NoDup ids ->
    download_stock w1 = Ok (wr, w2) ->
    (forall out ids',
        Seller.create_stocks wr ids = Ok (out, ids') ->
        Seller.create_prices wr ids' = ([], ids'))
    /\ Seller.main_try W get_product_list update_stocks update_price
                       download_stock client_id seller_token fuel w
       = Some ('(stocks, _) <- Seller.create_stocks wr ids ;;
               chunks <- Seller.divide stocks 100 ;;
               Seller.push_stocks W update_stocks client_id seller_token
                                  chunks w2).
Proof.
  intros W gpl upd updp dl cid tok fuel w w1 w2 ids wr Hids Hnd Hdl.
  assert (Hempty : forall out ids',
             Seller.create_stocks wr ids = Ok (out, ids') ->
             Seller.create_prices wr ids' = ([], ids')).
  { intros out ids' Hsel. rewrite seller_create_stocks in Hsel.
    destruct (traverse stock_of (matched wr ids)); [|discriminate].
    cbn in Hsel. inversion Hsel; subst.
    unfold Seller.create_prices. rewrite seller_prices_loop.
    now rewrite (known_leftover wr ids Hnd). }
  split; [exact Hempty|].
  unfold Seller.main_try. rewrite Hids. cbn [bind]. rewrite Hdl. cbn [bind].
  f_equal.
  destruct (Seller.create_stocks wr ids) as [[stocks ids']|e] eqn:Hsel;
    cbn [bind]; [|reflexivity].
  rewrite (Hempty stocks ids' eq_refl).
  destruct (Seller.divide stocks 100) as [chunks|e]; cbn [bind];
    [|reflexivity].
  destruct (Seller.push_stocks W upd cid tok chunks w2) as [w3|e];
    reflexivity.
Qed.

Lemma seller_main_sends_no_price_witness :
  NoDup ["x"; "y"; "z"]
  /\ Seller.main_try nat two_pages accept_stocks accept_prices
       (serve_report [Watch (VStr "x") (VInt 4) "100.00";
                      Watch (VStr "y") (VInt 5) "200.00"])
       "id" "key" 2 0%nat
     = Some ('(stocks, _) <-
                Seller.create_stocks
                  [Watch (VStr "x") (VInt 4) "100.00";
                   Watch (VStr "y") (VInt 5) "200.00"] ["x"; "y"; "z"] ;;
             chunks <- Seller.divide stocks 100 ;;
             Seller.push_stocks nat accept_stocks "id" "key" chunks 2%nat).
Proof.
  assert (Hnd : NoDup ["x"; "y"; "z"]).
  { repeat constructor; cbn; intuition discriminate. }
  split; [exact Hnd|].
  exact (proj2 (seller_main_sends_no_price
                  nat two_pages accept_stocks accept_prices
                  (serve_report [Watch (VStr "x") (VInt 4) "100.00";
                                 Watch (VStr "y") (VInt 5) "200.00"])
                  "id" "key" 2%nat 0%nat 2%nat 2%nat ["x"; "y"; "z"] _
                  eq_refl Hnd eq_refl)).
Defined.

(** ** Batches *)

Lemma divide_batches {A : Type} (lst : list A) (n : Z) :
  0 < n ->
  exists chunks,
    Seller.divide lst n = Ok chunks
    /\ List.concat chunks = lst
    /\ Forall (fun c => 0 < Z.of_nat (List.length c) <= n) chunks.
Proof.
  intros Hn. rewrite (divide_windows lst n Hn).
  set (len := Z.of_nat (List.length lst)).
  set (cnt := Z.to_nat ((len + n - 1) / n)).
  assert (Hq : 0 <= (len + n - 1) / n)
    by (apply Z.div_pos; subst len; lia).
  assert (Hceil : len <= Z.of_nat cnt * n < len + n).
  { subst cnt. rewrite Z2Nat.id by exact Hq.
    pose proof (Z.mul_div_le (len + n - 1) n Hn).
    pose proof (Z.mul_succ_div_gt (len + n - 1) n Hn).
    lia. }
  eexists. split; [reflexivity|]. split.
  - apply windows_concat. subst len. nia.
  - apply Forall_forall. intros c Hc. apply in_map_iff in Hc.
    destruct Hc as [k [<- Hk]]. apply in_seq in Hk.
    rewrite window_length. subst len. nia.
Qed.

Lemma concat_nonempty_nil {A : Type} (n : Z) (chunks : list (list A)) :
  Forall (fun c => 0 < Z.of_nat (List.length c) <= n) chunks ->
  List.concat chunks = [] ->
  chunks = [].
Proof.
  intros Hall Hcat. destruct chunks as [|c chunks]; [reflexivity|].
  inversion Hall as [|? ? Hc _]; subst.
  destruct c; [cbn in Hc; lia | discriminate Hcat].
Qed.

(** Every stock update that [upload_stocks] sends carries between 1 and
    100 items for the Seller and between 1 and 2000 for the Market; the
    updates, in the order sent, add up to the payload.  An empty payload
    sends no update. *)
Theorem upload_stocks_batches :
  (forall (W : Type) get_product_list update_stocks client_id seller_token
          fuel wr (w : W) not_empty stocks w2,
      Seller.upload_stocks W get_product_list update_stocks client_id
                           seller_token fuel wr w
      = Some (Ok ((not_empty, stocks), w2)) ->
      exists ids w1 chunks,
        Seller.get_offer_ids W get_product_list client_id seller_token
                             fuel w
        = Some (Ok (ids, w1))
        /\ Seller.push_stocks W update_stocks client_id seller_token
                              chunks w1 = Ok w2
        /\ List.concat chunks = stocks
        /\ Forall (fun c => 0 < Z.of_nat (List.length c) <= 100) chunks
        /\ (stocks = [] -> chunks = [] /\ w2 = w1))
  /\ (forall (W : Type) get_product_list update_stocks campaign_id
             market_token fuel wr warehouse_id date (w : W)
             not_empty stocks w2,
         Market.upload_stocks W get_product_list update_stocks campaign_id
                              market_token fuel wr warehouse_id date w
         = Some (Ok ((not_empty, stocks), w2)) ->
         exists ids w1 chunks,
           Market.get_offer_ids W get_product_list campaign_id market_token
                                fuel w
           = Some (Ok (ids, w1))
           /\ Market.push_stocks W update_stocks campaign_id market_token
                                 chunks w1 = Ok w2
           /\ List.concat chunks = stocks
           /\ Forall (fun c => 0 < Z.of_nat (List.length c) <= 2000) chunks
           /\ (stocks = [] -> chunks = [] /\ w2 = w1)).
Proof.
  split.
  - intros W gpl upd cid tok fuel wr w ne stocks w2.
    unfold Seller.upload_stocks.
    destruct (Seller.get_offer_ids W gpl cid tok fuel w)
      as [[[ids w1]|e]|]; cbn [bind]; try discriminate.
    destruct (Seller.create_stocks wr ids) as [[st ids']|e];
      cbn [bind]; try discriminate.
    destruct (divide_batches st 100 ltac:(lia))
      as (chunks & -> & Hcat & Hall).
    cbn [bind].
    destruct (Seller.push_stocks W upd cid tok chunks w1) as [w3|e] eqn:Hpush;
      cbn [bind]; try discriminate.
    intros H. inversion H; subst ne stocks w2; clear H.
    exists ids, w1, chunks.
    split; [reflexivity|]. split; [exact Hpush|]. split; [exact Hcat|].
    split; [exact Hall|].
    intros Hnil. rewrite Hnil in Hcat.
    rewrite (concat_nonempty_nil _ chunks Hall Hcat) in *.
    split; [reflexivity | cbn in Hpush; congruence].
  - intros W gpl upd cid tok fuel wr wh date w ne stocks w2.
    unfold Market.upload_stocks.
    destruct (Market.get_offer_ids W gpl cid tok fuel w)
      as [[[ids w1]|e]|]; cbn [bind]; try discriminate.
    destruct (Market.create_stocks wr ids wh date) as [[st ids']|e];
      cbn [bind]; try discriminate.
    destruct (divide_batches st 2000 ltac:(lia))
      as (chunks & -> & Hcat & Hall).
    cbn [bind].
    destruct (Market.push_stocks W upd cid tok chunks w1) as [w3|e] eqn:Hpush;
      cbn [bind]; try discriminate.
    destruct (filter_list Market.has_stock st); cbn [bind]; try discriminate.
    intros H. inversion H; subst ne stocks w2; clear H.
    exists ids, w1, chunks.
    split; [reflexivity|]. split; [exact Hpush|]. split; [exact Hcat|].
    split; [exact Hall|].
    intros Hnil. rewrite Hnil in Hcat.
    rewrite (concat_nonempty_nil _ chunks Hall Hcat) in *.
    split; [reflexivity | cbn in Hpush; congruence].
Qed.

Lemma upload_stocks_batches_witness :
  exists ids w1 chunks,
    Seller.get_offer_ids nat two_pages "id" "key" 2 0%nat
    = Some (Ok (ids, w1))
    /\ Seller.push_stocks nat accept_stocks "id" "key" chunks w1 = Ok 3%nat
    /\ List.concat chunks
       = [Seller.Stock.Make "x" 100; Seller.Stock.Make "y" 0;
          Seller.Stock.Make "z" 0]
    /\ Forall (fun c => 0 < Z.of_nat (List.length c) <= 100) chunks.
Proof.
  destruct (proj1 upload_stocks_batches nat two_pages accept_stocks
                  "id" "key" 2%nat
                  [Watch (VStr "x") (VStr ">10") "100.00";
                   Watch (VStr "y") (VStr "1") "50.00"] 0%nat _ _ _ eq_refl)
    as (ids & w1 & chunks & Hids & Hpush & Hcat & Hall & _).
  exists ids, w1, chunks. repeat split; assumption.
Defined.

(** ** The price uploads *)

(** [upload_prices] returns a price list exactly when the resolver returns
    identifiers, the price transform returns for them (the Seller one
    always does) and every batch is pushed without error.  The list is
    then the price payload for the resolved identifiers, and it has been
    sent whole and in order in batches of 1 to 1000 items (Seller) or 1 to
    500 items (Market). *)
Theorem upload_prices_batches :
  (forall (W : Type) get_product_list update_price client_id seller_token
          fuel wr (w : W) prices w2,
      Seller.upload_prices W get_product_list update_price client_id
                           seller_token fuel wr w
      = Some (Ok (prices, w2))
      <-> exists ids w1 chunks,
          Seller.get_offer_ids W get_product_list client_id seller_token
                               fuel w
          = Some (Ok (ids, w1))
          /\ prices = map seller_price (filter (known ids) wr)
          /\ Seller.divide prices 1000 = Ok chunks
          /\ List.concat chunks = prices
          /\ Forall (fun c => 0 < Z.of_nat (List.length c) <= 1000) chunks
          /\ Seller.push_prices W update_price client_id seller_token
                                chunks w1 = Ok w2)
  /\ (forall (W : Type) get_product_list update_price campaign_id
             market_token fuel wr (w : W) prices w2,
         Market.upload_prices W get_product_list update_price campaign_id
                              market_token fuel wr w
         = Some (Ok (prices, w2))
         <-> exists ids w1 chunks,
             Market.get_offer_ids W get_product_list campaign_id market_token
                                  fuel w
             = Some (Ok (ids, w1))
             /\ Market.create_prices wr ids = Ok (prices, ids)
             /\ Seller.divide prices 500 = Ok chunks
             /\ List.concat chunks = prices
             /\ Forall (fun c => 0 < Z.of_nat (List.length c) <= 500) chunks
             /\ Market.push_prices W update_price campaign_id market_token
                                   chunks w1 = Ok w2).
Proof.
  split.
  - intros W gpl upd cid tok fuel wr w prices w2.
    unfold Seller.upload_prices. split.
    + destruct (Seller.get_offer_ids W gpl cid tok fuel w)
        as [[[ids w1]|e]|]; cbn [bind]; try discriminate.
      unfold Seller.create_prices. rewrite seller_prices_loop. cbn [app].
      destruct (divide_batches (map seller_price (filter (known ids) wr))
                               1000 ltac:(lia))
        as (chunks & Hdiv & Hcat & Hall).
      rewrite Hdiv. cbn [bind].
      destruct (Seller.push_prices W upd cid tok chunks w1) as [w3|e] eqn:Hpush;
        cbn [bind]; try discriminate.
      intros H. inversion H; subst prices w2; clear H.
      exists ids, w1, chunks. repeat split; assumption.
    + intros (ids & w1 & chunks & -> & -> & Hdiv & _ & _ & Hpush).
      cbn [bind]. unfold Seller.create_prices.
      rewrite seller_prices_loop. cbn [app].
      rewrite Hdiv. cbn [bind]. rewrite Hpush. reflexivity.
  - intros W gpl upd cid tok fuel wr w prices w2.
    unfold Market.upload_prices. split.
    + destruct (Market.get_offer_ids W gpl cid tok fuel w)
        as [[[ids w1]|e]|]; cbn [bind]; try discriminate.
      destruct (Market.create_prices wr ids) as [[pr ids']|e] eqn:Hpr;
        cbn [bind]; try discriminate.
      assert (ids' = ids) as ->.
      { unfold Market.create_prices in Hpr.
        rewrite market_prices_loop in Hpr.
        destruct (traverse price_value (filter (known ids) wr));
          cbn in Hpr; congruence. }
      destruct (divide_batches pr 500 ltac:(lia))
        as (chunks & Hdiv & Hcat & Hall).
      rewrite Hdiv. cbn [bind].
      destruct (Market.push_prices W upd cid tok chunks w1) as [w3|e] eqn:Hpush;
        cbn [bind]; try discriminate.
      intros H. inversion H; subst prices w2; clear H.
      exists ids, w1, chunks. repeat split; assumption.
    + intros (ids & w1 & chunks & -> & Hpr & Hdiv & _ & _ & Hpush).
      cbn [bind]. rewrite Hpr. cbn [bind]. rewrite Hdiv. cbn [bind].
      rewrite Hpush. reflexivity.
Qed.

Lemma upload_prices_batches_witness :
  Seller.upload_prices nat two_pages accept_prices "id" "key" 2
    [Watch (VStr "x") (VInt 4) "100.00"; Watch (VStr "q") (VInt 5) "7.50"]
    0%nat
  = Some (Ok ([Seller.Price.Make "UNKNOWN" "RUB" "x" "0" "100"], 3%nat)).
Proof.
  apply (proj2 (proj1 upload_prices_batches nat two_pages accept_prices
                      "id" "key" 2%nat _ 0%nat _ _)).
  exists ["x"; "y"; "z"], 2%nat,
         [[Seller.Price.Make "UNKNOWN" "RUB" "x" "0" "100"]].
  split; [reflexivity|]. split; [reflexivity|]. split; [reflexivity|].
  split; [reflexivity|]. split; [|reflexivity].
  constructor; [cbn; lia | constructor].
Defined.

(** A known row whose price has no digit before its first ['.'] stops the
    Market price upload before anything is sent: [upload_prices] raises
    [ValueError] whatever [update_price] would do, so no part of the
    payload reaches the marketplace. *)
Theorem market_upload_prices_all_or_nothing :
  forall (W : Type) get_product_list campaign_id market_token fuel wr
         (w w1 : W) (ids : list string) (row : watch),
    Market.get_offer_ids W get_product_list campaign_id market_token fuel w
    = Some (Ok (ids, w1)) ->
    In row wr ->
    In (code row) ids ->
    Seller.price_conversion (Tsena row) = "" ->
    forall update_price,
      Market.upload_prices W get_product_list update_price campaign_id
                           market_token fuel wr w
      = Some (Raise ValueError).
Proof.
  intros W gpl cid tok fuel wr w w1 ids row Hids Hrow Hknown Hempty upd.
  unfold Market.upload_prices. rewrite Hids. cbn [bind].
  unfold Market.create_prices. rewrite market_prices_loop.
  assert (Hkept : In row (filter (known ids) wr)) by (now apply known_In).
  destruct (traverse price_value (filter (known ids) wr)) as [vs|e] eqn:Hvs.
  - exfalso.
    assert (Hall : is_ok (traverse price_value (filter (known ids) wr))
                   = true) by (now rewrite Hvs).
    apply traverse_ok in Hall. rewrite Forall_forall in Hall.
    specialize (Hall row Hkept). apply price_value_ok in Hall.
    contradiction.
  - cbn [bind]. do 2 f_equal. revert Hvs. apply traverse_error.
    intros a e'. apply int_of_string_error.
Qed.

Lemma market_upload_prices_all_or_nothing_witness :
  Market.upload_prices nat last_page accept_offers "id" "key" 1
    [Watch (VStr "A") (VInt 1) "n/a"] 0%nat
  = Some (Raise ValueError).
Proof.
  apply (market_upload_prices_all_or_nothing nat last_page "id" "key" 1%nat
           [Watch (VStr "A") (VInt 1) "n/a"] 0%nat 1%nat ["A"]
           (Watch (VStr "A") (VInt 1) "n/a")).
  - reflexivity.
  - now left.
  - now left.
  - reflexivity.
Defined.

(** ** A failed update *)

Lemma seller_push_stocks_app (W : Type) update_stocks client_id seller_token
    (pre rest : list (list Seller.Stock.t)) :
  forall w : W,
    Seller.push_stocks W update_stocks client_id seller_token (pre ++ rest) w
    = (w1 <- Seller.push_stocks W update_stocks client_id seller_token
                                pre w ;;
       Seller.push_stocks W update_stocks client_id seller_token rest w1).
Proof.
  induction pre as [|c pre IH]; intros w; cbn; [reflexivity|].
  destruct (update_stocks c client_id seller_token w); cbn;
    [apply IH | reflexivity].
Qed.

(** When the update of one batch fails, the Seller [upload_stocks] raises
    that error: the batches before it have been sent, the batches after it
    are never sent, and no summary is returned. *)
Theorem upload_stocks_aborts_on_failure :
  forall (W : Type) get_product_list update_stocks client_id seller_token
         fuel wr (w w1 w' : W) ids stocks ids' pre batch post e,
    Seller.get_offer_ids W get_product_list client_id seller_token fuel w
    = Some (Ok (ids, w1)) ->
    Seller.create_stocks wr ids = Ok (stocks, ids') ->
    Seller.divide stocks 100 = Ok (pre ++ batch :: post) ->
    Seller.push_stocks W update_stocks client_id seller_token pre w1
    = Ok w' ->
    update_stocks batch client_id seller_token w' = Raise e ->
    Seller.upload_stocks W get_product_list update_stocks client_id
                         seller_token fuel wr w
    = Some (Raise e)
    /\ forall later,
        Seller.push_stocks W update_stocks client_id seller_token
                           (pre ++ batch :: later) w1
        = Raise e.
Proof.
  intros W gpl upd cid tok fuel wr w w1 w' ids stocks ids' pre batch post e
         Hids Hst Hdiv Hpre Hfail.
  assert (Hpush : forall later,
             Seller.push_stocks W upd cid tok (pre ++ batch :: later) w1
             = Raise e).
  { intros later. rewrite seller_push_stocks_app, Hpre. cbn.
    now rewrite Hfail. }
  split; [|exact Hpush].
  unfold Seller.upload_stocks. rewrite Hids. cbn [bind].
  rewrite Hst. cbn [bind]. rewrite Hdiv. cbn [bind].
  now rewrite Hpush.
Qed.

Lemma upload_stocks_aborts_on_failure_witness :
  Seller.upload_stocks nat two_pages refuse_stocks "id" "key" 2
    [Watch (VStr "x") (VInt 4) "100.00"] 0%nat
  = Some (Raise HTTPError).
Proof.
  exact (proj1 (upload_stocks_aborts_on_failure
                  nat two_pages refuse_stocks "id" "key" 2%nat
                  [Watch (VStr "x") (VInt 4) "100.00"] 0%nat 2%nat 2%nat
                  ["x"; "y"; "z"] _ _ [] _ [] HTTPError
                  eq_refl eq_refl eq_refl eq_refl eq_refl)).
Defined.

(** ** Resolvers that stop, and resolvers that do not *)

Lemma seller_loop_signal (W : Type) get_product_list client_id seller_token
    (fuel : nat) :
  forall c acc (w w' : W) pl,
    Seller.get_offer_ids_loop W get_product_list client_id seller_token
                              fuel c acc w
    = Some (Ok (pl, w')) ->
    exists c' w0 p,
      get_product_list c' client_id seller_token w0 = Ok (p, w')
      /\ Seller.Page.total p = Z.of_nat (List.length pl).
Proof.
  induction fuel as [|fuel IH]; intros c acc w w' pl H; [discriminate|].
  cbn in H.
  destruct (get_product_list c client_id seller_token w)
    as [[p w1]|e] eqn:Hget; [|discriminate].
  destruct (Z.eqb_spec (Seller.Page.total p)
                       (Z.of_nat (List.length (acc ++ Seller.Page.items p))))
    as [Heq|Hne].
  - inversion H; subst pl w'; clear H. exists c, w, p. now split.
  - eapply IH. eassumption.
Qed.

Lemma market_loop_signal (W : Type) get_product_list campaign_id market_token
    (fuel : nat) :
  forall c acc (w w' : W) pl,
    Market.get_offer_ids_loop W get_product_list campaign_id market_token
                              fuel c acc w
    = Some (Ok (pl, w')) ->
    exists c' w0 p,
      get_product_list c' campaign_id market_token w0 = Ok (p, w')
      /\ Market.falsy (Market.Paging.nextPageToken (Market.Page.paging p))
         = true.
Proof.
  induction fuel as [|fuel IH]; intros c acc w w' pl H; [discriminate|].
  cbn in H.
  destruct (get_product_list c campaign_id market_token w)
    as [[p w1]|e] eqn:Hget; [|discriminate].
  destruct (Market.falsy (Market.Paging.nextPageToken (Market.Page.paging p)))
    eqn:Hf.
  - inversion H; subst pl w'; clear H. exists c, w, p. now split.
  - eapply IH. eassumption.
Qed.

Lemma fold_append_length {A B : Type} (f : A -> B) (l : list A) :
  List.length (fold_left (fun st a => st ++ [f a]) l []) = List.length l.
Proof.
  rewrite fold_append. cbn. apply length_map.
Qed.

(** When a resolver returns, the last response it received carried the
    signal: for the Seller its [total] is the number of identifiers
    returned, for the Market its next-page token is absent or empty. *)
Theorem get_offer_ids_last_response :
  (forall (W : Type) get_product_list client_id seller_token fuel
          (w w' : W) ids,
      Seller.get_offer_ids W get_product_list client_id seller_token fuel w
      = Some (Ok (ids, w')) ->
      exists last_id w0 p,
        get_product_list last_id client_id seller_token w0 = Ok (p, w')
        /\ Seller.Page.total p = Z.of_nat (List.length ids))
  /\ (forall (W : Type) get_product_list campaign_id market_token fuel
             (w w' : W) ids,
         Market.get_offer_ids W get_product_list campaign_id market_token
                              fuel w
         = Some (Ok (ids, w')) ->
         exists page w0 p,
           get_product_list page campaign_id market_token w0 = Ok (p, w')
           /\ Market.falsy
                (Market.Paging.nextPageToken (Market.Page.paging p))
              = true).
Proof.
  split.
  - intros W gpl cid tok fuel w w' ids. unfold Seller.get_offer_ids.
    destruct (Seller.get_offer_ids_loop W gpl cid tok fuel "" [] w)
      as [[[pl w1]|e]|] eqn:Hloop; cbn [bind]; try discriminate.
    intros H. inversion H; subst ids w'; clear H.
    rewrite (fold_append_length Seller.Product.offer_id).
    eapply seller_loop_signal. eassumption.
  - intros W gpl cid tok fuel w w' ids. unfold Market.get_offer_ids.
    destruct (Market.get_offer_ids_loop W gpl cid tok fuel "" [] w)
      as [[[pl w1]|e]|] eqn:Hloop; cbn [bind]; try discriminate.
    intros H. inversion H; subst ids w'; clear H.
    eapply market_loop_signal. eassumption.
Qed.

Lemma get_offer_ids_last_response_witness :
  exists last_id w0 p,
    two_pages last_id "id" "key" w0 = Ok (p, 2%nat)
    /\ Seller.Page.total p = Z.of_nat (List.length ["x"; "y"; "z"]).
Proof.
  exact (proj1 get_offer_ids_last_response nat two_pages "id" "key"
               2%nat 0%nat 2%nat ["x"; "y"; "z"] eq_refl).
Defined.

Lemma seller_loop_overshoot (W : Type) get_product_list client_id
    seller_token (T : Z) :
  (forall c (w : W), exists p w',
      get_product_list c client_id seller_token w = Ok (p, w')
      /\ Seller.Page.total p <= T) ->
  forall fuel c acc w,
    T < Z.of_nat (List.length acc) ->
    Seller.get_offer_ids_loop W get_product_list client_id seller_token
                              fuel c acc w
    = None.
Proof.
  intros Hsrv. induction fuel as [|fuel IH]; intros c acc w Hacc;
    [reflexivity|].
  cbn. destruct (Hsrv c w) as (p & w' & -> & Hp).
  assert (Hlen : T < Z.of_nat (List.length (acc ++ Seller.Page.items p)))
    by (rewrite length_app; lia).
  destruct (Z.eqb_spec (Seller.Page.total p)
                       (Z.of_nat (List.length (acc ++ Seller.Page.items p))));
    [lia|].
  now apply IH.
Qed.

(** The Seller resolver stops only on equality.  If the marketplace
    answers every request, never reports a total above [T], and its first
    page holds more than [T] items, then the item count has passed every
    total it will ever see: [get_offer_ids] makes request after request and
    never returns. *)
Theorem seller_get_offer_ids_overshoot :
  forall (W : Type) get_product_list client_id seller_token (T : Z)
         (w w0 : W) p0,
    (forall c w, exists p w',
        get_product_list c client_id seller_token w = Ok (p, w')
        /\ Seller.Page.total p <= T) ->
    get_product_list "" client_id seller_token w = Ok (p0, w0) ->
    T < Z.of_nat (List.length (Seller.Page.items p0)) ->
    forall fuel,
      Seller.get_offer_ids W get_product_list client_id seller_token fuel w
      = None.
Proof.
  intros W gpl cid tok T w w0 p0 Hsrv Hfirst Hover fuel.
  unfold Seller.get_offer_ids.
  destruct fuel as [|fuel]; [reflexivity|].
  cbn. rewrite Hfirst.
  destruct (Hsrv "" w) as (p & w' & Hp & Htot).
  assert (p = p0) by congruence. subst p.
  destruct (Z.eqb_spec (Seller.Page.total p0)
                       (Z.of_nat (List.length (Seller.Page.items p0))));
    [lia|].
  now rewrite (seller_loop_overshoot W gpl cid tok T Hsrv).
Qed.

Lemma seller_get_offer_ids_overshoot_witness :
  Seller.get_offer_ids nat overfull_pages "id" "key" 50 0%nat = None.
Proof.
  apply (seller_get_offer_ids_overshoot nat overfull_pages "id" "key" 1
           0%nat 1%nat
           (Seller.Page.Make
              [Seller.Product.Make "x"; Seller.Product.Make "y"] 1 "p")).
  - intros c w. eexists. eexists. split; [reflexivity | cbn; lia].
  - reflexivity.
  - cbn. lia.
Defined.

(** The Market resolver stops only on an absent or empty next-page token.
    If the marketplace answers every request with a page that names a
    next page, [get_offer_ids] never returns. *)
Theorem market_get_offer_ids_endless :
  forall (W : Type) get_product_list campaign_id market_token,
    (forall c (w : W), exists p w',
        get_product_list c campaign_id market_token w = Ok (p, w')
        /\ Market.falsy (Market.Paging.nextPageToken (Market.Page.paging p))
           = false) ->
    forall fuel w,
      Market.get_offer_ids W get_product_list campaign_id market_token
                           fuel w
      = None.
Proof.
  intros W gpl cid tok Hsrv fuel w. unfold Market.get_offer_ids.
  assert (Hloop : forall c acc w0,
             Market.get_offer_ids_loop W gpl cid tok fuel c acc w0 = None).
  { induction fuel as [|fuel IH]; intros c acc w0; [reflexivity|].
    cbn. destruct (Hsrv c w0) as (p & w' & -> & ->). apply IH. }
  now rewrite Hloop.
Qed.

Lemma market_get_offer_ids_endless_witness :
  Market.get_offer_ids nat endless_pages "id" "key" 50 0%nat = None.
Proof.
  apply (market_get_offer_ids_endless nat endless_pages "id" "key").
  intros c w. eexists. eexists. split; reflexivity.
Defined.

(** ** Normalised prices *)

Lemma filter_all {A : Type} (p : A -> bool) (l : list A) :
  Forall (fun a => p a = true) l -> filter p l = l.
Proof.
  induction 1 as [|a l Ha Hl IH]; cbn; [reflexivity|].
  now rewrite Ha, IH.
Qed.

Lemma split_hd_length (sep : ascii) (s : string) :
  (String.length (hd "" (split sep s)) <= String.length s)%nat.
Proof.
  induction s as [|c s IH]; cbn; [lia|].
  destruct (Ascii.eqb c sep); cbn; [lia|].
  destruct (split sep s); cbn in *; lia.
Qed.

Lemma string_length_list (s : string) :
  String.length s = List.length (list_ascii_of_string s).
Proof. induction s; cbn; congruence. Qed.

Lemma digit_not_dot (c : ascii) : is_digit c = true -> c <> "."%char.
Proof. intros H ->. discriminate H. Qed.

(** The normalised price holds decimal digits only, is never longer than
    the price it comes from, and normalising it again changes nothing. *)
Theorem price_conversion_idempotent (price : string) :
  Forall (fun c => is_digit c = true)
         (list_ascii_of_string (Seller.price_conversion price))
  /\ (String.length (Seller.price_conversion price)
      <= String.length price)%nat
  /\ Seller.price_conversion (Seller.price_conversion price)
     = Seller.price_conversion price.
Proof.
  pose proof (price_conversion_digits price) as Hd.
  split; [exact Hd|]. split.
  - unfold Seller.price_conversion. rewrite re_sub_delete.
    rewrite string_length_list, list_ascii_of_string_of_list_ascii.
    pose proof (filter_length_le is_digit
                  (list_ascii_of_string (hd "" (split "." price)))) as Hf.
    pose proof (split_hd_length "." price) as Hs.
    rewrite string_length_list in Hs. lia.
  - set (o := Seller.price_conversion price) in *.
    rewrite (price_conversion_prefix o o "").
    + rewrite filter_all by exact Hd.
      apply string_of_list_ascii_of_string.
    + clear. induction o as [|c o IH]; cbn; congruence.
    + intros c Hc. apply digit_not_dot.
      rewrite Forall_forall in Hd. now apply Hd.
    + now left.
Qed.

Lemma int_digits_nonneg (l : list ascii) :
  forall acc b z, 0 <= acc -> int_digits acc b l = Some z -> 0 <= z.
Proof.
  induction l as [|c l IH]; intros acc b z Hacc H; cbn in H.
  - destruct b; [congruence | discriminate].
  - destruct (is_digit c) eqn:Hc.
    + assert (Hnext : 0 <= 10 * acc + digit_value c).
      { unfold is_digit in Hc. unfold digit_value.
        apply andb_true_iff in Hc. destruct Hc as [Hlo _].
        apply N.leb_le in Hlo. lia. }
      exact (IH _ _ _ Hnext H).
    + destruct (Ascii.eqb c "_"); [|discriminate].
      destruct b; [|discriminate].
      destruct l as [|d l']; [discriminate|].
      destruct (is_digit d); [|discriminate].
      eapply IH; eassumption.
Qed.

Lemma int_of_digits_nonneg (s : string) (z : Z) :
  Forall (fun c => is_digit c = true) (list_ascii_of_string s) ->
  int_of_string s = Ok z -> 0 <= z.
Proof.
  intros Hd H. pose proof (strip_digits _ Hd) as Hs.
  destruct (list_ascii_of_string s) as [|c l] eqn:El.
  - destruct s; [discriminate H | discriminate El].
  - inversion Hd; subst.
    rewrite (int_of_digit_list c l s) in H; [|assumption|now rewrite El].
    destruct (int_digits 0 false (c :: l)) as [v|] eqn:Hv; [|discriminate].
    inversion H; subst. eapply int_digits_nonneg; [|eassumption]. lia.
Qed.

(** When the Market [create_prices] returns, its items run parallel to
    the Seller's: same identifiers in the same order, each Market [value]
    the integer that the Seller's [price] string denotes, in "RUR".  No
    value is negative: a minus sign in the price does not survive the
    normalisation. *)
Theorem market_prices_follow_seller (wr : list watch) (ids : list string)
    (out : list Market.Price.t) (ids' : list string) :
  Market.create_prices wr ids = Ok (out, ids') ->
  map Market.Price.id out
  = map Seller.Price.offer_id (fst (Seller.create_prices wr ids))
  /\ Forall2
       (fun m s =>
          int_of_string (Seller.Price.price s)
          = Ok (Market.PriceValue.value (Market.Price.price m))
          /\ 0 <= Market.PriceValue.value (Market.Price.price m)
          /\ Market.PriceValue.currencyId (Market.Price.price m) = "RUR")
       out (fst (Seller.create_prices wr ids)).
Proof.
  unfold Market.create_prices, Seller.create_prices.
  rewrite market_prices_loop, seller_prices_loop. cbn [app fst].
  destruct (traverse price_value (filter (known ids) wr)) as [vs|e] eqn:Hvs;
    cbn [bind]; [|discriminate].
  intros H. inversion H; subst out ids'; clear H.
  revert vs Hvs. induction (filter (known ids) wr) as [|w ws IH];
    intros vs Hvs; cbn in Hvs.
  - inversion Hvs; subst. split; [reflexivity | constructor].
  - destruct (price_value w) as [v|e] eqn:Hv; [|discriminate]. cbn in Hvs.
    destruct (traverse price_value ws) as [vs'|e]; [|discriminate].
    cbn in Hvs. inversion Hvs; subst vs; clear Hvs.
    destruct (IH vs' eq_refl) as [IHid IHall].
    unfold market_prices in *. cbn. split; [now f_equal|].
    constructor; [|exact IHall]. cbn. unfold price_value in Hv.
    repeat split; [exact Hv|].
    eapply int_of_digits_nonneg; [apply price_conversion_digits | exact Hv].
Qed.

Lemma market_prices_follow_seller_witness :
  map Market.Price.id
      [Market.Price.Make "A" (Market.PriceValue.Make 500 "RUR")]
  = map Seller.Price.offer_id
        (fst (Seller.create_prices [Watch (VStr "A") (VInt 2) "-500.00"]
                                   ["A"])).
Proof.
  exact (proj1 (market_prices_follow_seller
                  [Watch (VStr "A") (VInt 2) "-500.00"] ["A"] _ _ eq_refl)).
Defined.

(** ** Quantities *)

Lemma read_printed_int (z : Z) :
  NilZero.int_of_string (NilZero.string_of_int (Z.to_int z))
  = Some (Z.to_int z).
Proof.
  apply NilZero.isi; destruct z as [|p|p]; cbn; try discriminate;
    intros H; inversion H as [Hp];
    exact (DecimalPos.Unsigned.to_uint_nonnil p Hp).
Qed.

Lemma str_int_inj (z : Z) (s : string) (d : Decimal.signed_int) :
  NilZero.int_of_string s = Some d ->
  str (VInt z) = s ->
  z = Z.of_int d.
Proof.
  intros Hs Hz. cbn in Hz. rewrite <- (DecimalZ.of_to z). f_equal.
  pose proof (read_printed_int z) as Hread.
  rewrite Hz in Hread. congruence.
Qed.

Lemma str_int_not (z : Z) (s : string) :
  NilZero.int_of_string s = None -> str (VInt z) <> s.
Proof.
  intros Hs Hz. cbn in Hz. pose proof (read_printed_int z) as Hread.
  rewrite Hz in Hread. congruence.
Qed.

(** An integer quantity cell goes through unchanged, negative values
    included, except the integer 1, which becomes 0 like the string
    "1". *)
Theorem stock_of_integer_cell (k : value) (z : Z) (price : string) :
  stock_of (Watch k (VInt z) price) = Ok (if z =? 1 then 0 else z).
Proof.
  unfold stock_of. cbn [Kolichestvo int].
  destruct (String.eqb_spec (str (VInt z)) ">10") as [E|_].
  - exfalso. revert E. now apply str_int_not.
  - destruct (String.eqb_spec (str (VInt z)) "1") as [E|N].
    + rewrite (str_int_inj z "1" (Decimal.Pos (Decimal.D1 Decimal.Nil))
                           eq_refl E).
      reflexivity.
    + destruct (Z.eqb_spec z 1) as [->|_]; [now elim N | reflexivity].
Qed.

Lemma delete_In (x y : string) (l : list string) :
  In y (delete x l) -> In y l.
Proof.
  induction l as [|a l IH]; cbn; [tauto|].
  destruct (String.eqb a x); cbn; tauto.
Qed.

Lemma matched_In (wr : list watch) :
  forall ids w, In w (matched wr ids) -> In w wr /\ In (code w) ids.
Proof.
  induction wr as [|w0 wr IH]; intros ids w; cbn; [tauto|].
  destruct (contains (code w0) ids) eqn:Hc.
  - intros [<-|Hin]; [split; [now left | now apply contains_In]|].
    destruct (IH _ _ Hin) as [Hw Hid].
    split; [now right | eapply delete_In; eassumption].
  - intros Hin. destruct (IH _ _ Hin). split; [now right | assumption].
Qed.

Lemma traverse_raise {A B : Type} (f : A -> result B) (l : list A) (e : exn) :
  traverse f l = Raise e -> exists a, In a l /\ f a = Raise e.
Proof.
  induction l as [|a l IH]; cbn; [discriminate|].
  destruct (f a) as [b|e'] eqn:Ea; cbn.
  - destruct (traverse f l) as [r|e'] eqn:Er; cbn; [discriminate|].
    intros H. destruct IH as (a' & Hin & Ha'); [congruence|].
    exists a'. split; [now right | exact Ha'].
  - intros H. exists a. split; [now left | congruence].
Qed.

(** What makes [create_stocks] raise: [int] raising on the quantity cell
    of an inventory row whose code is a known identifier and whose
    quantity reads neither ">10" nor "1".  The exception is the one [int]
    raised: [ValueError] when the cell is text, [TypeError] when the row
    has no quantity column; an integer cell never raises.  The Market
    transform raises the same exception. *)
Theorem create_stocks_raises (wr : list watch) (ids : list string)
    (e : exn) :
  Seller.create_stocks wr ids = Raise e ->
  (forall wh date, Market.create_stocks wr ids wh date = Raise e)
  /\ exists w,
      In w wr /\ In (code w) ids
      /\ str (Kolichestvo w) <> ">10"
      /\ str (Kolichestvo w) <> "1"
      /\ int (Kolichestvo w) = Raise e
      /\ (forall s, Kolichestvo w = VStr s -> e = ValueError)
      /\ (Kolichestvo w = VNone -> e = TypeError)
      /\ (forall z, Kolichestvo w <> VInt z).
Proof.
  intros Hsel. split.
  - intros wh date. rewrite market_create_stocks, Hsel. reflexivity.
  - rewrite seller_create_stocks in Hsel.
    destruct (traverse stock_of (matched wr ids)) as [qs|e'] eqn:Hqs;
      cbn in Hsel; [discriminate|].
    inversion Hsel; subst e'; clear Hsel.
    destruct (traverse_raise _ _ _ Hqs) as (w & Hin & Hw).
    destruct (matched_In _ _ _ Hin) as [Hwr Hid].
    exists w. split; [exact Hwr|]. split; [exact Hid|].
    unfold stock_of in Hw.
    destruct (String.eqb_spec (str (Kolichestvo w)) ">10") as [|Hten];
      [discriminate|].
    destruct (String.eqb_spec (str (Kolichestvo w)) "1") as [|Hone];
      [discriminate|].
    split; [exact Hten|]. split; [exact Hone|]. split; [exact Hw|].
    split; [|split].
    + intros s Hs. rewrite Hs in Hw. cbn in Hw.
      now apply (int_of_string_error s).
    + intros Hs. rewrite Hs in Hw. cbn in Hw. congruence.
    + intros z Hs. rewrite Hs in Hw. discriminate Hw.
Qed.

Lemma create_stocks_raises_witness :
  exists w,
    In w [Watch (VStr "A") (VOther "nan" (Raise ValueError)) "1.00"]
    /\ In (code w) ["A"]
    /\ int (Kolichestvo w) = Raise ValueError.
Proof.
  destruct (proj2 (create_stocks_raises
                     [Watch (VStr "A") (VOther "nan" (Raise ValueError))
                            "1.00"]
                     ["A"] ValueError eq_refl))
    as (w & Hw & Hid & _ & _ & Hraise & _).
  exists w. repeat split; assumption.
Defined.

(** ** The two schemas *)

(** The two [create_stocks] agree: they raise the same exception or
    return payloads with the same identifiers and the same quantities in
    the same order, and leave the same identifiers behind.  Every Market
    item names the warehouse passed in and holds exactly one entry, of
    type "FIT", stamped with the date taken before the loop. *)
Theorem stock_payloads_agree (wr : list watch) (ids : list string)
    (wh date : string) :
  match Seller.create_stocks wr ids, Market.create_stocks wr ids wh date with
  | Ok (out, ids1), Ok (mout, ids2) =>
      ids1 = ids2
      /\ map Market.Sku.sku mout = map Seller.Stock.offer_id out
      /\ map first_count mout = map Seller.Stock.stock out
      /\ Forall (fun s =>
                   Market.Sku.warehouseId s = wh
                   /\ exists c,
                       Market.Sku.items s = [Market.Item.Make c "FIT" date])
                mout
  | Raise e1, Raise e2 => e1 = e2
  | _, _ => False
  end.
Proof.
  rewrite market_create_stocks.
  destruct (Seller.create_stocks wr ids) as [[out ids1]|e]; cbn;
    [|reflexivity].
  split; [reflexivity|]. rewrite !map_map. cbn.
  split; [reflexivity|]. split; [reflexivity|].
  apply Forall_forall. intros s Hs. apply in_map_iff in Hs.
  destruct Hs as [x [<- _]]. cbn. split; [reflexivity | eauto].
Qed.

(** ** Small payloads *)

(** A non-empty list that fits the batch size is one chunk, the list
    itself; an empty list gives no chunk for any non-zero size. *)
Theorem divide_single_batch {A : Type} (lst : list A) (n : Z) :
  (0 < Z.of_nat (List.length lst) <= n -> Seller.divide lst n = Ok [lst])
  /\ (n <> 0 -> Seller.divide (@nil A) n = Ok []).
Proof.
  split.
  - intros [Hpos Hfit]. rewrite divide_windows by lia.
    replace ((Z.of_nat (List.length lst) + n - 1) / n) with 1.
    + change (Z.to_nat 1) with 1%nat. cbn [seq map]. unfold window.
      rewrite Nat.mul_0_l. cbn [skipn]. rewrite firstn_all2 by lia.
      reflexivity.
    + apply Z.div_unique with (r := Z.of_nat (List.length lst) - 1); lia.
  - intros Hn. unfold Seller.divide, range, range_len.
    destruct (Z.eqb_spec n 0) as [?|_]; [contradiction|].
    cbn. destruct (0 <? n); reflexivity.
Qed.

Lemma divide_single_batch_witness :
  0 < Z.of_nat (List.length [1; 2; 3]) <= 100
  /\ Seller.divide [1; 2; 3] 100 = Ok [[1; 2; 3]].
Proof.
  assert (H : 0 < Z.of_nat (List.length [1; 2; 3]) <= 100) by (cbn; lia).
  split; [exact H|].
  exact (proj1 (divide_single_batch [1; 2; 3] 100) H).
Defined.
